(** * devbox: profile priorities and generated-file synchronisation

    A shallow embedding of two files of the repository:

    - [internal/nix/profiles.go]: [ProfileInstall], [readManifest],
      [nextPriority];
    - the shell generator ([package shellgen]): [writeFromTemplate],
      [overwriteFileIfChanged], [overwriteFile], [makeFlakeFile],
      [isProjectInGitRepo].

    Go values are modelled as follows.  A [[]byte] is a [list byte], a Go
    [string] a [string], an [int] a [Z] kept inside the 64-bit range with the
    wrap-around of [+] written out, an [error] an [option error] ([None] is
    [nil]), and a Go pair [(T, error)] a Rocq pair.  The operating system,
    the libraries ([path/filepath], [encoding/json], [text/template],
    [os/exec]) and the helpers of the repository that live in other files are
    interfaces (type classes); system calls that can fail take their failure
    from an explicit oracle, so that every [err != nil] branch of the source
    is a branch of the model. *)

From Stdlib Require Import ZArith String Ascii DecimalString Permutation.
From Stdlib.Strings Require Import Byte.
From stdpp Require Import base gmap strings list.

Set Warnings "-register-all".

Local Open Scope Z_scope.
Local Open Scope string_scope.
Local Open Scope list_scope.

(** ** Errors *)

(** Error numbers a system call can fail with, [ENOENT] apart: that one is
    [ErrNotExist] below and is decided by the state of the file system. *)
Inductive errno := EACCES | EIO | ENOSPC | EROFS | EINTR | EISDIR.

Inductive error :=
| ErrNotExist                                (* fs.ErrNotExist *)
| ErrSys (e : errno)                         (* any other os.PathError *)
| EOF                                        (* io.EOF *)
| SyntaxError                                (* json.SyntaxError *)
| UnmarshalTypeError                         (* json.UnmarshalTypeError *)
| UserErr (msg : string)                     (* usererr.New(msg) *)
| Redacted (format : string) (args : list string) (cause : error)
                                             (* redact.Errorf(format, args..., cause) *)
| WithStack (cause : error)                  (* errors.WithStack(cause) *)
| ExitError (code : Z).                      (* exec.ExitError *)

(** [errors.Is(err, fs.ErrNotExist)] on the errors the system calls return. *)
Definition isNotExist (err : error) : bool :=
  match err with ErrNotExist => true | _ => false end.

(** [errors.WithStack]: [nil] stays [nil]. *)
Definition withStack (err : option error) : option error :=
  match err with None => None | Some e => Some (WithStack e) end.

#[global] Instance errno_eq_dec : EqDecision errno.
Proof. solve_decision. Defined.

#[global] Instance byte_eq_dec : EqDecision byte := Byte.byte_eq_dec.

(** ** The file system *)

(** [path/filepath]: the two functions the code calls. *)
Class Filepath := {
  Dir : string -> string;
  Join : string -> string -> string
}.

(** A regular file: its bytes, its permission bits and the time of its last
    modification.  Time is a logical clock: every call that modifies a file
    stamps it with a fresh tick. *)
Record file := File {
  content : list byte;
  mode : N;
  mtime : nat
}.

(** The calls on files the program makes, in the order it makes them. *)
Inductive fileop :=
| OpCreate (path : string) (perm : N)
| OpChmod (path : string) (perm : N)
| OpTruncate (path : string) (size : nat)
| OpWriteAt (path : string) (offset : nat) (b : list byte)
| OpMkdirAll (path : string) (perm : N)
| OpWriteFile (path : string) (data : list byte) (perm : N).

Record filesystem := FS {
  files : gmap string file;
  dirs : gset string;
  umask : N;
  clock : nat;
  trace : list fileop
}.

(** What goes wrong during one call of [overwriteFileIfChanged]: for each
    system call whether it fails, for [ReadByte] at which offsets, for
    [WriteAt] after how many bytes. *)
Record faults := Faults {
  open_fault : option errno;
  stat_fault : option errno;
  chmod_fault : option errno;
  read_fault : nat -> option errno;
  truncate_fault : option errno;
  write_fault : option (nat * errno);
  mkdir_fault : option errno;
  writefile_fault : option errno
}.

Definition no_faults : faults :=
  Faults None None None (fun _ => None) None None None None.

Definition log (op : fileop) (fs : filesystem) : filesystem :=
  FS (files fs) (dirs fs) (umask fs) (clock fs) (trace fs ++ [op]).

(** A modification of the file at [path]: the file is rewritten by [f] and
    stamped with the next tick. *)
Definition modify (path : string) (f : list byte -> list byte) (fs : filesystem) : filesystem :=
  let now := S (clock fs) in
  FS (alter (fun x => File (f (content x)) (mode x) now) path (files fs))
     (dirs fs) (umask fs) now (trace fs).

(** [ftruncate]: cut, or pad with zero bytes. *)
Definition truncated (size : nat) (c : list byte) : list byte := resize size x00 c.

(** [pwrite]: [b] replaces the bytes from [offset] on; a hole before
    [offset] reads as zero bytes. *)
Definition written (offset : nat) (b c : list byte) : list byte :=
  resize offset x00 c ++ b ++ drop (offset + length b) c.

(** [os.File.Truncate]. *)
Definition Truncate (phi : faults) (path : string) (size : nat) (fs : filesystem)
  : option error * filesystem :=
  let fs := log (OpTruncate path size) fs in
  match truncate_fault phi with
  | Some e => (Some (ErrSys e), fs)
  | None => (None, modify path (truncated size) fs)
  end.

(** [os.File.WriteAt]: it loops on [pwrite] while bytes remain, so an
    empty [b] reaches no system call; a failure leaves the bytes written so
    far in the file. *)
Definition WriteAt (phi : faults) (path : string) (b : list byte) (offset : nat)
    (fs : filesystem) : option error * filesystem :=
  let fs := log (OpWriteAt path offset b) fs in
  match b with
  | [] => (None, fs)
  | _ :: _ =>
      match write_fault phi with
      | Some (n, e) =>
          (Some (ErrSys e),
           if decide (n = 0)%nat then fs else modify path (written offset (take n b)) fs)
      | None => (None, modify path (written offset b) fs)
      end
  end.

(** [os.File.Chmod]. *)
Definition Chmod (phi : faults) (path : string) (perm : N) (fs : filesystem)
  : option error * filesystem :=
  let fs := log (OpChmod path perm) fs in
  match chmod_fault phi with
  | Some e => (Some (ErrSys e), fs)
  | None =>
      (None, FS (alter (fun x => File (content x) perm (mtime x)) path (files fs))
                (dirs fs) (umask fs) (clock fs) (trace fs))
  end.

(** [fs.FileMode.Perm]: the nine permission bits. *)
Definition Perm (m : N) : N := N.land m 511.

(** A new file as [open(O_CREAT)] and [os.WriteFile] make it. *)
Definition create (path : string) (data : list byte) (perm : N) (fs : filesystem) : filesystem :=
  let now := S (clock fs) in
  FS (<[path := File data (N.ldiff (Perm perm) (umask fs)) now]> (files fs))
     (dirs fs) (umask fs) now (trace fs).

(** [os.OpenFile(path, os.O_RDWR|os.O_CREATE, perm)]: an existing file is
    opened as it is; a missing one is created empty when its directory
    exists, and the call fails with [ErrNotExist] when it does not. *)
Definition OpenFile `{Filepath} (phi : faults) (path : string) (perm : N) (fs : filesystem)
  : option error * filesystem :=
  match open_fault phi with
  | Some e => (Some (ErrSys e), fs)
  | None =>
      match files fs !! path with
      | Some _ => (None, fs)
      | None =>
          if decide (Dir path ∈ dirs fs)
          then (None, create path [] perm (log (OpCreate path perm) fs))
          else (Some ErrNotExist, fs)
      end
  end.

(** The directories [os.MkdirAll] makes: [d] and the ancestors it lacks. *)
Fixpoint ancestors `{Filepath} (fuel : nat) (d : string) : list string :=
  match fuel with
  | O => []
  | S fuel => d :: (if decide (Dir d = d) then [] else ancestors fuel (Dir d))
  end.

(** [os.MkdirAll]. *)
Definition MkdirAll `{Filepath} (phi : faults) (d : string) (perm : N) (fs : filesystem)
  : option error * filesystem :=
  let fs := log (OpMkdirAll d perm) fs in
  match mkdir_fault phi with
  | Some e => (Some (ErrSys e), fs)
  | None =>
      (None, FS (files fs) (list_to_set (ancestors (S (String.length d)) d) ∪ dirs fs)
                (umask fs) (clock fs) (trace fs))
  end.

(** [os.WriteFile]: create or truncate, then write. *)
Definition WriteFile (phi : faults) (path : string) (data : list byte) (perm : N)
    (fs : filesystem) : option error * filesystem :=
  let fs := log (OpWriteFile path data perm) fs in
  match writefile_fault phi with
  | Some e => (Some (ErrSys e), fs)
  | None =>
      match files fs !! path with
      | Some _ => (None, modify path (fun _ => data) fs)
      | None => (None, create path data perm fs)
      end
  end.

(** A write in the trace: any call but a change of permissions. *)
Definition isWrite (op : fileop) : bool :=
  match op with OpChmod _ _ => false | _ => true end.

(** ** [overwriteFile] and [overwriteFileIfChanged] *)

(** [overwriteFile] truncates f to len(data) and writes data[offset:]
    beginning at the same offset in f. *)
Definition overwriteFile (phi : faults) (f : string) (data : list byte) (offset : nat)
    (fs : filesystem) : option error * filesystem :=
  match Truncate phi f (length data) fs with
  | (Some err, fs) => (Some err, fs)
  | (None, fs) => WriteAt phi f (drop offset data) offset fs
  end.

(** The loop [for offset := range data] of [overwriteFileIfChanged]:
    [existing] is what the buffered reader has still to deliver, [data] what
    is still to compare, [offset] the loop variable.  The result is the
    offset at which the loop leaves for [overwriteFile] (a read error, the
    end of the file, or a byte that differs), [None] when it runs to its end. *)
Fixpoint firstMismatch (phi : faults) (existing data : list byte) (offset : nat)
    {struct data} : option nat :=
  match data with
  | [] => None
  | d :: data =>
      match read_fault phi offset, existing with
      | Some _, _ => Some offset
      | None, [] => Some offset
      | None, b :: existing =>
          if decide (b = d) then firstMismatch phi existing data (S offset) else Some offset
      end
  end.

(** [overwriteFileIfChanged] checks that the contents of f == data, and
    overwrites f if they differ. It also ensures that f's permissions are
    set to perm. *)
Definition overwriteFileIfChanged `{Filepath} (phi : faults) (path : string)
    (data : list byte) (perm : N) (fs : filesystem) : option error * filesystem :=
  match OpenFile phi path perm fs with
  | (Some err, fs) =>
      if isNotExist err then
        match MkdirAll phi (Dir path) 448 fs with
        | (Some err, fs) => (Some err, fs)
        | (None, fs) => WriteFile phi path data perm fs
        end
      else (Some err, fs)
  | (None, fs) =>
      (* fi, err := file.Stat() *)
      let fi := match stat_fault phi with Some _ => None | None => files fs !! path end in
      let chmod :=
        match fi with
        | Some fi => if decide (Perm (mode fi) = perm) then (None, fs) else Chmod phi path perm fs
        | None => Chmod phi path perm fs
        end in
      match chmod with
      | (Some err, fs) => (Some err, fs)
      | (None, fs) =>
          let existing := default [] (content <$> files fs !! path) in
          let differ :=
            match fi with
            | Some fi => negb (bool_decide (length (content fi) = length data))
            | None => false
            end in
          if differ then overwriteFile phi path data 0 fs
          else
            match firstMismatch phi existing data 0 with
            | Some offset => overwriteFile phi path data offset fs
            | None => (None, fs)
            end
      end
  end.

(** ** [encoding/json] at the two manifest types *)

(** A JSON document after the scanner.  An object keeps its members in the
    order of the text, repeated keys included.  A number is [JInt] when its
    literal is an integer literal and [JFloat] (with the literal) when it has
    a fraction or an exponent: [Unmarshal] fills an [int] with
    [strconv.ParseInt] of the literal, which accepts the first kind only. *)
Inductive json :=
| JNull
| JBool (b : bool)
| JInt (z : Z)
| JFloat (literal : string)
| JString (s : string)
| JArray (elems : list json)
| JObject (members : list (string * json)).

(** What the model takes from the library: the scanner ([None] for a text
    that is not JSON, which [Unmarshal] reports as a [SyntaxError] before it
    decodes anything), and the test by which [Unmarshal] matches an object
    key to a struct field ("preferring an exact match but also accepting a
    case-insensitive match"). *)
Class EncodingJSON := {
  scan : list byte -> option json;
  foldEq : string -> string -> bool;
  foldEq_refl : forall name, foldEq name name = true
}.

(** The order in which [range] visits a map is not specified; it is some
    order of the map's entries. *)
Class MapRange := {
  mapRange : gmap string Z -> list (string * Z);
  mapRange_perm : forall m, mapRange m ≡ₚ map_to_list m
}.

Definition minInt : Z := - 2 ^ 63.
Definition maxInt : Z := 2 ^ 63 - 1.

Definition inInt (z : Z) : Prop := minInt <= z <= maxInt.

(** Go's [int] arithmetic wraps around. *)
Definition wrapInt (z : Z) : Z := (z + 2 ^ 63) mod 2 ^ 64 - 2 ^ 63.

(** Decoding is written as the library does it: a JSON [null] leaves the Go
    value as it is (or sets a map or slice to nil), a value of the wrong
    kind is an [UnmarshalTypeError] ([None] here; the library goes on
    decoding and returns the first such error at the end, and the code below
    uses the decoded value only when there was none), and the members of an
    object are decoded in turn, each into the field its key matches, the
    others skipped. *)

(** Into an [int] holding [cur]. *)
Definition decodeInt (v : json) (cur : Z) : option Z :=
  match v with
  | JNull => Some cur
  | JInt z => if bool_decide (inInt z) then Some z else None
  | _ => None
  end.

(** The members of an object, each decoded by [field] into the value
    decoded so far. *)
Definition decodeMembers {A} (field : string -> json -> A -> option A)
    (members : list (string * json)) (cur : A) : option A :=
  foldl (fun acc kv => a ← acc; field kv.1 kv.2 a) (Some cur) members.

(** Into a [struct { Priority int `json:"priority"` }] holding [cur]. *)
Definition decodeElement `{EncodingJSON} (v : json) (cur : Z) : option Z :=
  match v with
  | JNull => Some cur
  | JObject members =>
      decodeMembers (fun k x p => if foldEq "priority" k then decodeInt x p else Some p)
                    members cur
  | _ => None
  end.

(** Into a [map[string]struct{...}] holding [cur] (the nil map is the empty
    map here: the code only ranges over it).  Each member is decoded into a
    fresh element and stored under its key. *)
Definition decodeMap `{EncodingJSON} (v : json) (cur : gmap string Z) : option (gmap string Z) :=
  match v with
  | JNull => Some ∅
  | JObject members =>
      decodeMembers (fun k x m => p ← decodeElement x 0; Some (<[k := p]> m)) members cur
  | _ => None
  end.

(** Into a [[]struct{...}] holding [cur]: element [i] of the array is
    decoded into element [i] of the slice, a fresh one past its length, and
    the slice ends where the array does. *)
Fixpoint decodeArray `{EncodingJSON} (elems : list json) (cur : list Z) : option (list Z) :=
  match elems with
  | [] => Some []
  | x :: elems =>
      p ← decodeElement x (hd 0 cur);
      ps ← decodeArray elems (tl cur);
      Some (p :: ps)
  end.

Definition decodeSlice `{EncodingJSON} (v : json) (cur : list Z) : option (list Z) :=
  match v with
  | JNull => Some []
  | JArray elems => decodeArray elems cur
  | _ => None
  end.

(** [json.Unmarshal(data, &x)] for a struct [x] with the one field
    [Elements ... `json:"elements"`], whose zero value is [zero] and which
    [field] decodes. *)
Definition Unmarshal `{EncodingJSON} {A} (field : json -> A -> option A) (zero : A)
    (data : list byte) : error + A :=
  match scan data with
  | None => inl SyntaxError
  | Some v =>
      let decoded :=
        match v with
        | JNull => Some zero
        | JObject members =>
            decodeMembers (fun k x a => if foldEq "elements" k then field x a else Some a)
                          members zero
        | _ => None
        end in
      match decoded with
      | None => inl UnmarshalTypeError
      | Some a => inr a
      end
  end.

(** The two shapes of [manifest.json], as documents: the legacy one, an
    array of elements, and the modern one, a map from identifiers to
    elements. *)
Definition elementDoc (priority : Z) : json := JObject [("priority", JInt priority)].

Definition legacyDoc (priorities : list Z) : json :=
  JObject [("elements", JArray (elementDoc <$> priorities))].

Definition modernDoc (entries : list (string * Z)) : json :=
  JObject [("elements", JObject (prod_map id elementDoc <$> entries))].

(** ** [internal/nix/profiles.go] *)

Record element := Element { Priority : Z }.

Record manifest := Manifest { Elements : list element }.

Inductive stream := OsStdin | OsStdout | OsStderr | Writer (id : nat).

(** An [*exec.Cmd] as far as the code sets it up. *)
Record Cmd := {
  Args : list string;
  Env : list string;
  Stdin : option stream;
  Stdout : option stream;
  Stderr : option stream
}.

(** What [profiles.go] takes from the operating system and from the other
    files of its package. *)
Class NixEnv := {
  ReadFile : string -> error + list byte;
  IsInsecureAllowed : bool;
  PackageIsInsecure : string -> bool;
  PackageKnownVulnerabilities : string -> list string;
  commandContext : list string -> Cmd;
  allowUnfreeEnv : list string -> list string;
  Environ : list string;
  Run : Cmd -> option error
}.

Record ProfileInstallArgs := {
  Installable : string;
  Offline : bool;
  ProfilePath : string;
  Writer_ : nat
}.

Definition readManifest `{Filepath} `{EncodingJSON} `{MapRange} `{NixEnv}
    (profilePath : string) : manifest * option error :=
  match ReadFile (Join profilePath "manifest.json") with
  | inl err =>
      if isNotExist err then (Manifest [], None) else (Manifest [], Some err)
  | inr data =>
      match Unmarshal decodeMap ∅ data with
      | inr modernMani =>
          (* Convert to the result format *)
          (Manifest (map (fun e => Element e.2) (mapRange modernMani)), None)
      | inl _ =>
          match Unmarshal decodeSlice [] data with
          | inl err => (Manifest [], Some err)
          | inr legacyMani =>
              (* Convert to the result format *)
              (Manifest (map Element legacyMani), None)
          end
      end
  end.

Definition DefaultPriority : Z := 5.

(** [fmt.Sprintf("%d", n)]. *)
Definition formatInt (n : Z) : string := NilZero.string_of_int (Z.to_int n).

(** The loop of [nextPriority]. *)
Definition maxPriority (elems : list element) : Z :=
  foldl (fun max e => if bool_decide (max < Priority e) then Priority e else max)
        DefaultPriority elems.

Definition nextPriority `{Filepath} `{EncodingJSON} `{MapRange} `{NixEnv}
    (profilePath : string) : string :=
  (* error is ignored because it's ok if the file doesn't exist *)
  let '(m, _) := readManifest profilePath in
  let max := maxPriority (Elements m) in
  formatInt (wrapInt (max + 1)).

Definition newline : string := String "010"%char "".

(** [fmt.Sprintf("%s", l)] for a [[]string]. *)
Definition formatStrings (l : list string) : string :=
  "[" +:+ String.concat " " l +:+ "]".

(** The text of the error [ProfileInstall] refuses an insecure package with. *)
Definition insecureMessage (installable : string) (knownVulnerabilities : list string) : string :=
  let errString := "Package " +:+ installable +:+ " is insecure. " +:+ newline +:+ newline in
  let errString :=
    if bool_decide (0 < length knownVulnerabilities)%nat
    then errString +:+ "Known vulnerabilities: " +:+ formatStrings knownVulnerabilities
                   +:+ " " +:+ newline +:+ newline
    else errString in
  errString +:+ "To override use `devbox add <pkg> --allow-insecure`".


(** The command [ProfileInstall] runs. *)
Definition installCmd `{Filepath} `{EncodingJSON} `{MapRange} `{NixEnv}
    (args : ProfileInstallArgs) : Cmd :=
  let cmd := commandContext
    ["profile"; "install";
     "--profile"; ProfilePath args;
     "--impure";
     "--priority"; nextPriority (ProfilePath args)] in
  let cmdArgs := if Offline args then Args cmd ++ ["--offline"] else Args cmd in
  let cmdArgs := cmdArgs ++ [Installable args] in
  {| Args := cmdArgs;
     Env := allowUnfreeEnv Environ;
     Stdin := Some OsStdin;
     Stdout := Some (Writer (Writer_ args));
     Stderr := Some (Writer (Writer_ args)) |}.

(** [ProfileInstall]: its result, and the commands it has run. *)
Definition ProfileInstall `{Filepath} `{EncodingJSON} `{MapRange} `{NixEnv}
    (args : ProfileInstallArgs) : option error * list Cmd :=
  if negb IsInsecureAllowed && PackageIsInsecure (Installable args) then
    let knownVulnerabilities := PackageKnownVulnerabilities (Installable args) in
    (Some (UserErr (insecureMessage (Installable args) knownVulnerabilities)), [])
  else
    let cmd := installCmd args in
    (Run cmd, [cmd]).

(** ** The shell generator *)

(** [text/template] and the embedded template set: parsing a template of
    the set, and executing one on a plan, which writes into a buffer and may
    stop with an error after part of the output. *)
Class Templates := {
  Template : Type;
  Plan : Type;
  ParseFS : string -> string -> error + Template;
  Execute : Template -> Plan -> list byte * option error;
  needsGlibcPatch : Plan -> bool
}.

(** What the generator takes from the rest of the repository and from the
    operating system: the project, the feature flag, the debug switch, the
    failures of [os.Stat] that are not absences, and the run of a command. *)
Class ShellgenEnv := {
  devboxer : Type;
  FlakePath : devboxer -> string;
  RemoveNixpkgs_Enabled : bool;
  debug_IsEnabled : bool;
  stat_error : string -> option errno;
  execRun : Cmd -> option error
}.

(** The state the generator works on: the cache and the buffer for
    generating templated files (package variables), the disk, and the
    commands run so far. *)
Record world `{Templates} := World {
  tmplCache : gmap string Template;
  tmplBuf : list byte;
  disk : filesystem;
  spawned : list Cmd
}.

Arguments World {_} _ _ _ _.

(** The first lines of [writeFromTemplate]: the template comes from the
    cache, or is parsed from the embedded set and cached. *)
Definition getTemplate `{Templates} (tmplKey : string) (w : world) : error + Template * world :=
  match tmplCache w !! tmplKey with
  | Some tmpl => inr (tmpl, w)
  | None =>
      let glob := "tmpl/" +:+ tmplKey in
      match ParseFS tmplKey glob with
      | inl err => inl (Redacted "parse embedded tmplFS glob %q: %v" [glob] err)
      | inr tmpl =>
          inr (tmpl, World (<[tmplKey := tmpl]> (tmplCache w)) (tmplBuf w) (disk w) (spawned w))
      end
  end.

Definition writeFromTemplate `{Filepath} `{Templates} (phi : faults)
    (path : string) (plan : Plan) (tmplName generatedName : string) (w : world)
  : option error * world :=
  let tmplKey := tmplName +:+ ".tmpl" in
  match getTemplate tmplKey w with
  | inl err => (Some err, w)
  | inr (tmpl, w) =>
      (* tmplBuf.Reset(); tmpl.Execute(&tmplBuf, plan) *)
      let '(out, err) := Execute tmpl plan in
      let w := World (tmplCache w) ([] ++ out) (disk w) (spawned w) in
      match err with
      | Some err => (Some (Redacted "execute template %s: %v" [tmplKey] err), w)
      | None =>
          (* In some circumstances, Nix looks at the mod time of a file when
             caching, so we only want to update the file if something has
             changed. *)
          match overwriteFileIfChanged phi (Join path generatedName) (tmplBuf w) 420 (disk w) with
          | (Some err, fs) =>
              (Some (Redacted "write %s to file: %v" [tmplName] err),
               World (tmplCache w) (tmplBuf w) fs (spawned w))
          | (None, fs) => (None, World (tmplCache w) (tmplBuf w) fs (spawned w))
          end
      end
  end.

(** [os.Stat]: a path is there when it is a file or a directory of the
    disk. *)
Definition Stat `{ShellgenEnv} (path : string) (fs : filesystem) : option error :=
  match stat_error path with
  | Some e => Some (ErrSys e)
  | None =>
      if bool_decide (path ∈ dirs fs \/ is_Some (files fs !! path)) then None
      else Some ErrNotExist
  end.

(** [isProjectInGitRepo].  The loop [for dir != "/"] has no bound in the
    source; [fuel] bounds its iterations here, and [None] is a loop that has
    not come to its end within them. *)
Fixpoint isProjectInGitRepo `{Filepath} `{ShellgenEnv} (fuel : nat) (dir : string)
    (fs : filesystem) : option bool :=
  match fuel with
  | O => None
  | S fuel =>
      if decide (dir = "/") then
        (* We reached the fs-root dir *)
        Some false
      else
        (* Look for a .git directory in `dir` *)
        match Stat (Join dir ".git") fs with
        | None =>
            (* Found a .git *)
            Some true
        | Some err =>
            if negb (isNotExist err) then
              (* An error means we will not find a git repo so return false *)
              Some false
            else
              (* No .git directory found, so loop again into the parent dir *)
              isProjectInGitRepo fuel (Dir dir) fs
        end
  end.

(** The directory [n] levels above [dir]. *)
Definition ancestor `{Filepath} (n : nat) (dir : string) : string := Nat.iter n Dir dir.

(** [exec.Command("git", args...)], with the standard streams attached when
    debugging is enabled. *)
Definition gitCmd `{ShellgenEnv} (args : list string) : Cmd :=
  {| Args := "git" :: args;
     Env := [];
     Stdin := if debug_IsEnabled then Some OsStdin else None;
     Stdout := if debug_IsEnabled then Some OsStdout else None;
     Stderr := if debug_IsEnabled then Some OsStderr else None |}.

(** [cmd.Run()]: the command is run, which the world records. *)
Definition run `{Templates} `{ShellgenEnv} (cmd : Cmd) (w : world) : option error * world :=
  (execRun cmd, World (tmplCache w) (tmplBuf w) (disk w) (spawned w ++ [cmd])).

(** The template [makeFlakeFile] renders. *)
Definition flakeTemplate `{ShellgenEnv} : string :=
  if RemoveNixpkgs_Enabled then "flake_remove_nixpkgs.nix" else "flake.nix".

Definition makeFlakeFile `{Filepath} `{Templates} `{ShellgenEnv} (fuel : nat) (phi : faults)
    (d : devboxer) (outPath : string) (plan : Plan) (w : world)
  : option (option error * world) :=
  let flakeDir := FlakePath d in
  let templateName := flakeTemplate in
  match writeFromTemplate phi flakeDir plan templateName "flake.nix" w with
  | (Some err, w) => Some (Some (WithStack err), w)
  | (None, w) =>
      match isProjectInGitRepo fuel outPath (disk w) with
      | None => None
      | Some false =>
          (* if we are not in a git repository, then carry on *)
          Some (None, w)
      | Some true =>
          (* make an empty git repo *)
          match run (gitCmd ["-C"; flakeDir; "init"]) w with
          | (Some err, w) => Some (Some (WithStack err), w)
          | (None, w) =>
              let args := ["-C"; flakeDir; "add"; "flake.nix"] in
              let args :=
                if needsGlibcPatch plan then args ++ ["glibc-patch/flake.nix"] else args in
              let '(err, w) := run (gitCmd args) w in
              Some (withStack err, w)
          end
      end
  end.

(** ** The rest of the shell generator *)

(** The embedded file system [tmplFS], read with [fs.ReadFile]. *)
Class EmbedFS := {
  embedReadFile : string -> error + list byte
}.

(** [writeGlibcPatchScript] writes the embedded glibc patching script to
    disk so that a generated flake can use it. *)
Definition writeGlibcPatchScript `{Filepath} `{EmbedFS} (phi : faults) (path : string)
    (fs : filesystem) : option error * filesystem :=
  match embedReadFile "tmpl/glibc-patch.bash" with
  | inl err => (Some (Redacted "read embedded glibc-patch.bash: %v" [] err), fs)
  | inr script =>
      match overwriteFileIfChanged phi path script 493 fs with
      | (Some err, fs) => (Some (Redacted "write glibc-patch.bash to file: %v" [] err), fs)
      | (None, fs) => (None, fs)
      end
  end.

(** What [GenerateForPrintEnv] takes from the rest of the package: the
    planner, the paths of the project, the glibc patch flake and the writer
    of the scripts. *)
Class GenerateEnv `{Templates} `{ShellgenEnv} := {
  newFlakePlan : devboxer -> error + Plan;
  genPath : devboxer -> string;
  ProjectDir : devboxer -> string;
  glibcPatchFlake : Type;
  newGlibcPatchFlake : devboxer -> Plan -> error + glibcPatchFlake;
  writeTo : glibcPatchFlake -> string -> world -> option error * world;
  WriteScriptsToFiles : devboxer -> world -> option error * world
}.

(** The glibc patch step of [GenerateForPrintEnv]. *)
Definition glibcPatchStep `{Filepath} `{GenerateEnv} (devbox : devboxer) (plan : Plan) (w : world)
  : option error * world :=
  if needsGlibcPatch plan then
    match newGlibcPatchFlake devbox plan with
    | inl err => (Some (Redacted "generate glibc patch flake: %v" [] err), w)
    | inr patch =>
        match writeTo patch (Join (FlakePath devbox) "glibc-patch") w with
        | (Some err, w) =>
            (Some (Redacted "write glibc patch flake to directory: %v" [] err), w)
        | (None, w) => (None, w)
        end
    end
  else (None, w).

(** [GenerateForPrintEnv] will create all the files necessary for
    processing devbox.PrintEnv.  The three calls of [overwriteFileIfChanged]
    it leads to take their failures from [shell], [ignore] and [flake]. *)
Definition GenerateForPrintEnv `{Filepath} `{GenerateEnv} (fuel : nat)
    (shell ignore flake : faults) (devbox : devboxer) (w : world)
  : option (option error * world) :=
  match newFlakePlan devbox with
  | inl err => Some (Some err, w)
  | inr plan =>
      let outPath := genPath devbox in
      (* Preserving shell.nix to avoid breaking old-style .envrc users *)
      match writeFromTemplate shell outPath plan "shell.nix" "shell.nix" w with
      | (Some err, w) => Some (Some (WithStack err), w)
      | (None, w) =>
          (* Gitignore file is added to the .devbox directory *)
          match writeFromTemplate ignore (Join (ProjectDir devbox) ".devbox") plan
                  ".gitignore" ".gitignore" w with
          | (Some err, w) => Some (Some (WithStack err), w)
          | (None, w) =>
              match glibcPatchStep devbox plan w with
              | (Some err, w) => Some (Some err, w)
              | (None, w) =>
                  match makeFlakeFile fuel flake devbox outPath plan w with
                  | None => None
                  | Some (Some err, w) => Some (Some (WithStack err), w)
                  | Some (None, w) => Some (WriteScriptsToFiles devbox w)
                  end
              end
          end
      end
  end.

(** ** Instances of the interfaces, for the examples *)

(** [path/filepath] on Unix, for clean absolute paths: [Dir] drops the last
    element (and [Dir "/"] is ["/"]), [Join] puts a separator between its
    arguments. *)
Module Unix.

Definition slash : ascii := "/"%char.

(** The characters before the last separator, in reverse. *)
Fixpoint beforeLastSlash (rev_path : list ascii) : list ascii :=
  match rev_path with
  | [] => []
  | c :: rest => if decide (c = slash) then rest else beforeLastSlash rest
  end.

Definition dir (path : string) : string :=
  match reverse (beforeLastSlash (reverse (list_ascii_of_string path))) with
  | [] => if String.prefix "/" path then "/" else "."
  | d => string_of_list_ascii d
  end.

Definition join (a b : string) : string :=
  if decide (a = "/") then a +:+ b else a +:+ "/" +:+ b.

End Unix.

#[global] Instance unixPath : Filepath := {| Dir := Unix.dir; Join := Unix.join |}.

(** A scanner for the JSON of the examples: all of the grammar but the
    [\u] escapes of strings. *)
Module Scanner.

Definition dquote : ascii := ascii_of_nat 34.
Definition backslash : ascii := ascii_of_nat 92.

Definition isSpace (c : ascii) : bool :=
  bool_decide (nat_of_ascii c ∈ [32; 9; 10; 13]%nat).

Definition isDigit (c : ascii) : bool :=
  bool_decide (48 <= nat_of_ascii c <= 57)%nat.

Fixpoint skipSpace (cs : list ascii) : list ascii :=
  match cs with
  | c :: rest => if isSpace c then skipSpace rest else cs
  | [] => []
  end.

(** The digits [cs] starts with, and what follows them. *)
Fixpoint digits (cs : list ascii) : list ascii * list ascii :=
  match cs with
  | c :: rest => if isDigit c then let '(ds, rest) := digits rest in (c :: ds, rest) else ([], cs)
  | [] => ([], [])
  end.

Definition digitsValue (ds : list ascii) : Z :=
  foldl (fun n d => 10 * n + (Z.of_nat (nat_of_ascii d) - 48)) 0 ds.

(** An integer part: [0], or digits that do not start with [0]. *)
Definition intPart (cs : list ascii) : option (list ascii * list ascii) :=
  match digits cs with
  | ([], _) => None
  | (d :: ds, rest) =>
      if bool_decide (d = "0"%char) && negb (bool_decide (ds = [])) then None
      else Some (d :: ds, rest)
  end.

(** A fraction or an exponent after the integer part, if there is one. *)
Definition fracPart (cs : list ascii) : option (list ascii * list ascii) :=
  match cs with
  | c :: rest =>
      if bool_decide (c = "."%char) then
        match digits rest with
        | ([], _) => None
        | (ds, rest) => Some (c :: ds, rest)
        end
      else Some ([], cs)
  | [] => Some ([], [])
  end.

Definition expPart (cs : list ascii) : option (list ascii * list ascii) :=
  match cs with
  | c :: rest =>
      if bool_decide (c = "e"%char \/ c = "E"%char) then
        let '(sign, rest) :=
          match rest with
          | s :: rest' =>
              if bool_decide (s = "+"%char \/ s = "-"%char) then ([s], rest') else ([], rest)
          | [] => ([], [])
          end in
        match digits rest with
        | ([], _) => None
        | (ds, rest) => Some (c :: sign ++ ds, rest)
        end
      else Some ([], cs)
  | [] => Some ([], [])
  end.

Definition number (cs : list ascii) : option (json * list ascii) :=
  let '(neg, cs) :=
    match cs with
    | c :: rest => if bool_decide (c = "-"%char) then (true, rest) else (false, cs)
    | [] => (false, [])
    end in
  '(ds, cs) ← intPart cs;
  '(frac, cs) ← fracPart cs;
  '(exp, cs) ← expPart cs;
  match frac ++ exp with
  | [] => Some (JInt (if neg then - digitsValue ds else digitsValue ds), cs)
  | tail =>
      Some (JFloat (string_of_list_ascii ((if neg then ["-"%char] else []) ++ ds ++ tail)), cs)
  end.

Definition unescape (c : ascii) : option ascii :=
  if bool_decide (c = dquote \/ c = backslash \/ c = "/"%char) then Some c
  else if bool_decide (c = "n"%char) then Some (ascii_of_nat 10)
  else if bool_decide (c = "t"%char) then Some (ascii_of_nat 9)
  else if bool_decide (c = "r"%char) then Some (ascii_of_nat 13)
  else if bool_decide (c = "b"%char) then Some (ascii_of_nat 8)
  else if bool_decide (c = "f"%char) then Some (ascii_of_nat 12)
  else None.

(** A string after its opening quote. *)
Fixpoint stringBody (cs : list ascii) : option (string * list ascii) :=
  match cs with
  | [] => None
  | c :: rest =>
      if bool_decide (c = dquote) then Some ("", rest)
      else if bool_decide (c = backslash) then
        match rest with
        | e :: rest =>
            c' ← unescape e;
            '(s, rest) ← stringBody rest;
            Some (String c' s, rest)
        | [] => None
        end
      else if bool_decide (nat_of_ascii c < 32)%nat then None
      else '(s, rest) ← stringBody rest; Some (String c s, rest)
  end.

Definition literal (word : string) (v : json) (cs : list ascii) : option (json * list ascii) :=
  let w := list_ascii_of_string word in
  if bool_decide (take (length w) cs = w) then Some (v, drop (length w) cs) else None.

Fixpoint value (fuel : nat) (cs : list ascii) : option (json * list ascii) :=
  match fuel with
  | O => None
  | S fuel =>
      match skipSpace cs with
      | [] => None
      | c :: rest =>
          if bool_decide (c = "n"%char) then literal "null" JNull (c :: rest)
          else if bool_decide (c = "t"%char) then literal "true" (JBool true) (c :: rest)
          else if bool_decide (c = "f"%char) then literal "false" (JBool false) (c :: rest)
          else if bool_decide (c = dquote) then
            '(s, rest) ← stringBody rest; Some (JString s, rest)
          else if bool_decide (c = "["%char) then
            match skipSpace rest with
            | c' :: rest' =>
                if bool_decide (c' = "]"%char) then Some (JArray [], rest')
                else '(vs, rest) ← elems fuel rest; Some (JArray vs, rest)
            | [] => None
            end
          else if bool_decide (c = "{"%char) then
            match skipSpace rest with
            | c' :: rest' =>
                if bool_decide (c' = "}"%char) then Some (JObject [], rest')
                else '(ms, rest) ← members fuel rest; Some (JObject ms, rest)
            | [] => None
            end
          else number (c :: rest)
      end
  end
with elems (fuel : nat) (cs : list ascii) : option (list json * list ascii) :=
  match fuel with
  | O => None
  | S fuel =>
      '(v, cs) ← value fuel cs;
      match skipSpace cs with
      | c :: rest =>
          if bool_decide (c = ","%char) then
            '(vs, rest) ← elems fuel rest; Some (v :: vs, rest)
          else if bool_decide (c = "]"%char) then Some ([v], rest)
          else None
      | [] => None
      end
  end
with members (fuel : nat) (cs : list ascii) : option (list (string * json) * list ascii) :=
  match fuel with
  | O => None
  | S fuel =>
      match skipSpace cs with
      | q :: cs =>
          if bool_decide (q = dquote) then
            '(k, cs) ← stringBody cs;
            match skipSpace cs with
            | colon :: cs =>
                if bool_decide (colon = ":"%char) then
                  '(v, cs) ← value fuel cs;
                  match skipSpace cs with
                  | c :: rest =>
                      if bool_decide (c = ","%char) then
                        '(ms, rest) ← members fuel rest; Some ((k, v) :: ms, rest)
                      else if bool_decide (c = "}"%char) then Some ([(k, v)], rest)
                      else None
                  | [] => None
                  end
                else None
            | [] => None
            end
          else None
      | [] => None
      end
  end.

(** A whole text: one value, and nothing but space after it. *)
Definition document (data : list byte) : option json :=
  let cs := map ascii_of_byte data in
  '(v, rest) ← value (S (length cs)) cs;
  match skipSpace rest with
  | [] => Some v
  | _ => None
  end.

(** Upper case for the letters of ASCII. *)
Definition upper (c : ascii) : ascii :=
  let n := nat_of_ascii c in
  if bool_decide (97 <= n <= 122)%nat then ascii_of_nat (n - 32) else c.

Definition equalFold (a b : string) : bool :=
  bool_decide (map upper (list_ascii_of_string a) = map upper (list_ascii_of_string b)).

End Scanner.

#[global] Instance asciiJSON : EncodingJSON :=
  {| scan := Scanner.document;
     foldEq := Scanner.equalFold;
     foldEq_refl := fun name => bool_decide_eq_true_2 _ eq_refl |}.

(** A [range] that visits a map in the order of [map_to_list]. *)
#[global] Instance listedRange : MapRange :=
  {| mapRange := map_to_list; mapRange_perm := fun m => Permutation_refl (map_to_list m) |}.

(** A text with [apostrophe]s for the quotes of JSON, as bytes. *)
Definition quoted (s : string) : list byte :=
  map (fun c => byte_of_ascii (if bool_decide (c = "'"%char) then Scanner.dquote else c))
      (list_ascii_of_string s).

(** A disk with the one generated file ["/out/flake.nix"], which holds
    ["AAAABBBB"] with permissions [0o644] and was last modified at time 7. *)
Definition exampleDisk : filesystem :=
  FS {[ "/out/flake.nix" := File (list_byte_of_string "AAAABBBB") 420 7 ]}
     {[ "/"; "/out" ]} 18 10 [].

(** An environment of [profiles.go] in which the manifest files read as
    [manifests] says (and are missing otherwise), insecure packages are
    allowed or not as [insecureAllowed] says, the packages of [vulnerable]
    are insecure, with the vulnerabilities listed there, and every command
    succeeds. *)
Definition exampleNix (manifests : list (string * (error + list byte)))
    (insecureAllowed : bool) (vulnerable : list (string * list string)) : NixEnv :=
  {| ReadFile := fun path =>
       default (inl ErrNotExist)
               ((fun found => found.2.2) <$> list_find (fun kv => kv.1 = path) manifests);
     IsInsecureAllowed := insecureAllowed;
     PackageIsInsecure := fun pkg => bool_decide (pkg ∈ vulnerable.*1);
     PackageKnownVulnerabilities := fun pkg =>
       default [] ((fun found => found.2.2) <$> list_find (fun kv => kv.1 = pkg) vulnerable);
     commandContext := fun args =>
       {| Args := "nix" :: args; Env := []; Stdin := None; Stdout := None; Stderr := None |};
     allowUnfreeEnv := fun env => env ++ ["NIXPKGS_ALLOW_UNFREE=1"];
     Environ := [];
     Run := fun _ => None |}.

(** The manifest of the legacy shape and the one of the modern shape with
    the priorities 5 and 9. *)
Definition legacy59 : list byte := quoted "{'elements':[{'priority':5},{'priority':9}]}".
Definition modern59 : list byte :=
  quoted "{'elements':{'hello':{'priority':5},'cowsay':{'priority':9}}}".

(** The profiles of the examples: one with a legacy manifest and one with a
    modern manifest of the priorities 5 and 9, one whose manifest cannot be
    read, one whose manifest is not a manifest, one with the priorities 5, 7
    and 3, one with the largest [int] as a priority, and one whose manifest
    spells its key [Elements]. *)
Definition exampleProfiles : list (string * (error + list byte)) :=
  [("/legacy/manifest.json", inr legacy59);
   ("/modern/manifest.json", inr modern59);
   ("/denied/manifest.json", inl (ErrSys EACCES));
   ("/broken/manifest.json", inr (quoted "{'elements': 7}"));
   ("/three/manifest.json",
    inr (quoted "{'elements':[{'priority':5},{'priority':7},{'priority':3}]}"));
   ("/largest/manifest.json", inr (quoted "{'elements':[{'priority':9223372036854775807}]}"));
   ("/capital/manifest.json", inr (quoted "{'version':2,'Elements':[{'priority':9}]}"));
   ("/other/manifest.json", inr (quoted "{'version':2,'elements':null}"))].

Definition strict : NixEnv := exampleNix exampleProfiles false [("openssl-1.0", ["CVE-1"; "CVE-2"])].

Definition installArgs (installable profilePath : string) : ProfileInstallArgs :=
  {| Installable := installable; Offline := false; ProfilePath := profilePath; Writer_ := 1 |}.

(** Templates that are their own output: executing one writes its bytes,
    and fails after them when it carries an error.  The embedded set has the
    one template ["flake.nix.tmpl"], given by [flake]. *)
Definition exampleTemplates (flake : list byte * option error) : Templates :=
  {| Template := list byte * option error;
     Plan := unit;
     ParseFS := fun key _ => if decide (key = "flake.nix.tmpl") then inr flake else inl ErrNotExist;
     Execute := fun tmpl _ => tmpl;
     needsGlibcPatch := fun _ => false |}.

(** A project in ["/proj"], which is under version control, with its
    generated files in ["/proj/.devbox/gen"] and its flake directory below;
    [os.Stat] fails as [statErrors] says and every command succeeds. *)
Definition exampleShellgen (statErrors : string -> option errno) : ShellgenEnv :=
  {| devboxer := unit;
     FlakePath := fun _ => "/proj/.devbox/gen/flake";
     RemoveNixpkgs_Enabled := false;
     debug_IsEnabled := false;
     stat_error := statErrors;
     execRun := fun _ => None |}.

(** Its disk, with an earlier [flake.nix], and the world before the
    generator has run. *)
Definition projectDisk (git : bool) : filesystem :=
  FS {[ "/proj/.devbox/gen/flake/flake.nix" := File (list_byte_of_string "{ old }") 420 7 ]}
     ({[ "/"; "/proj"; "/proj/.devbox"; "/proj/.devbox/gen"; "/proj/.devbox/gen/flake" ]}
        ∪ (if git then {[ "/proj/.git" ]} else ∅))
     18 10 [].

Definition projectWorld `{Templates} (git : bool) : world := World ∅ [] (projectDisk git) [].

(** A template that renders to ["{ new }"], and one that fails after it has
    written ["{ ne"]. *)
Definition goodTemplates : Templates := exampleTemplates (list_byte_of_string "{ new }", None).
Definition badTemplates : Templates :=
  exampleTemplates (list_byte_of_string "{ ne", Some (UserErr "can't evaluate field Packages")).

(** [os.Stat] is refused on the marker of the directory of generated files. *)
Definition deniedMarker (path : string) : option errno :=
  if decide (path = "/proj/.devbox/gen/.git") then Some EACCES else None.

(** The failures of the examples: [MkdirAll] refused, [Chmod] on a
    read-only file system, a disk that fills up after two bytes. *)
Definition mkdirRefused : faults :=
  Faults None None None (fun _ => None) None None (Some EACCES) None.
Definition chmodReadOnly : faults :=
  Faults None None (Some EROFS) (fun _ => None) None None None None.
Definition diskFull : faults :=
  Faults None None None (fun _ => None) None (Some (2%nat, ENOSPC)) None None.

(** The embedded script of the examples. *)
Definition exampleEmbed : EmbedFS :=
  {| embedReadFile := fun name =>
       if decide (name = "tmpl/glibc-patch.bash")
       then inr (list_byte_of_string "#!/bin/bash") else inl ErrNotExist |}.

(** The rest of the package for the project of the examples: a planner
    that succeeds, no glibc patch, scripts whose writing the model does not
    follow. *)
Definition exampleGenerate : @GenerateEnv goodTemplates (exampleShellgen (fun _ => None)) :=
  {| newFlakePlan := fun _ => inr (tt : @Plan goodTemplates);
     genPath := fun _ => "/proj/.devbox/gen";
     ProjectDir := fun _ => "/proj";
     glibcPatchFlake := unit;
     newGlibcPatchFlake := fun _ _ => inr tt;
     writeTo := fun _ _ w => (None, w);
     WriteScriptsToFiles := fun _ w => (None, w) |}.

(** * Properties *)

(** ** The file synchroniser *)

Section FileSynchronizer.
Context `{Filepath}.

Implicit Types (phi : faults) (fs : filesystem) (f : file) (data : list byte).

(** The loop runs to its end on a file that holds [data], if no read fails. *)
Lemma firstMismatch_same phi data offset :
  (forall k, (offset <= k < offset + length data)%nat -> read_fault phi k = None) ->
  firstMismatch phi data data offset = None.
Proof.
  revert offset. induction data as [|d data IH]; intros offset Hread; [done|].
  simpl. rewrite Hread by (simpl; lia).
  rewrite decide_True by done.
  apply IH. intros k Hk. apply Hread. simpl. lia.
Qed.

(** Where the loop leaves: at the first offset at which the read fails, the
    file has ended, or the byte differs. *)
Lemma firstMismatch_Some phi existing data offset k :
  firstMismatch phi existing data offset = Some k ->
  exists j, k = (offset + j)%nat /\ (j < length data)%nat /\ (j <= length existing)%nat /\
    take j existing = take j data /\
    (forall i, (i < j)%nat -> read_fault phi (offset + i) = None) /\
    (read_fault phi k <> None \/ existing !! j <> data !! j).
Proof.
  revert existing offset. induction data as [|d data IH]; intros existing offset; [done|].
  simpl. destruct (read_fault phi offset) as [e|] eqn:Hr.
  { intros [= <-]. exists 0%nat. rewrite Nat.add_0_r, Hr.
    repeat split; simpl; try lia; try done; by left. }
  destruct existing as [|b existing].
  { intros [= <-]. exists 0%nat. rewrite Nat.add_0_r.
    repeat split; simpl; try lia; try done; by right. }
  case_decide as Hb.
  - subst b. intros Hk. apply IH in Hk as (j & -> & Hj & Hje & Htake & Hreads & Hstop).
    exists (S j). repeat split; simpl; try lia.
    + by rewrite Htake.
    + intros [|i] Hi; [by rewrite Nat.add_0_r|].
      replace (offset + S i)%nat with (S offset + i)%nat by lia. apply Hreads. lia.
    + replace (offset + S j)%nat with (S offset + j)%nat by lia. done.
  - intros [= <-]. exists 0%nat. rewrite Nat.add_0_r.
    repeat split; simpl; try lia; try done; right; congruence.
Qed.

(** When the loop runs to its end, every read succeeded and the file starts
    with [data]. *)
Lemma firstMismatch_None phi existing data offset :
  firstMismatch phi existing data offset = None ->
  take (length data) existing = data /\
  forall i, (i < length data)%nat -> read_fault phi (offset + i) = None.
Proof.
  revert existing offset. induction data as [|d data IH]; intros existing offset.
  { intros _. split; [by rewrite take_0|]. simpl. lia. }
  simpl. destruct (read_fault phi offset) as [e|] eqn:Hr; [done|].
  destruct existing as [|b existing]; [done|].
  case_decide as Hb; [|done]. subst b.
  intros Hk. apply IH in Hk as [Htake Hreads]. split.
  - simpl. by rewrite Htake.
  - intros [|i] Hi; [by rewrite Nat.add_0_r|].
    replace (offset + S i)%nat with (S offset + i)%nat by lia. apply Hreads. simpl in Hi. lia.
Qed.

(** Truncating to the length of [data] and writing [data] from [offset] on
    leaves [data], when the file agreed with [data] before [offset]. *)
Lemma written_truncated data offset (c : list byte) :
  (offset <= length data)%nat -> (offset <= length c)%nat ->
  take offset c = take offset data ->
  written offset (drop offset data) (truncated (length data) c) = data.
Proof.
  intros Hod Hoc Hpre. unfold written, truncated.
  rewrite resize_resize by done. rewrite resize_le by done.
  rewrite (drop_ge (resize _ _ _)); [|rewrite length_resize, length_drop; lia].
  rewrite Hpre, app_nil_r. apply take_drop.
Qed.

(** [overwriteFile] when its two calls succeed: whatever the file held from
    [offset] on, it holds [data] afterwards, provided it agreed with [data]
    before [offset]; and it is stamped with a later time. *)
Lemma overwriteFile_ok phi path data offset fs f :
  truncate_fault phi = None -> write_fault phi = None ->
  files fs !! path = Some f ->
  (offset <= length data)%nat -> (offset <= length (content f))%nat ->
  take offset (content f) = take offset data ->
  exists fs' t,
    overwriteFile phi path data offset fs = (None, fs') /\
    files fs' !! path = Some (File data (mode f) t) /\ (clock fs < t)%nat /\
    trace fs' = trace fs ++ [OpTruncate path (length data); OpWriteAt path offset (drop offset data)].
Proof.
  intros Ht Hw Hf Hod Hoc Hpre.
  pose proof (written_truncated data offset (content f) Hod Hoc Hpre) as Hdata.
  unfold overwriteFile, Truncate. rewrite Ht.
  unfold WriteAt. destruct (drop offset data) as [|b bs] eqn:Hdrop.
  - eexists _, (S (clock fs)). split; [reflexivity|]. simpl.
    rewrite lookup_alter_eq, Hf. simpl. split; [|split; [lia|by rewrite <- app_assoc]].
    assert (offset = length data) as ->.
    { apply (f_equal length) in Hdrop. rewrite length_drop in Hdrop. simpl in Hdrop. lia. }
    do 2 f_equal. rewrite <- Hdata at 2. unfold written.
    rewrite app_nil_l, (drop_ge (truncated _ _)); [|unfold truncated; rewrite length_resize; simpl; lia].
    rewrite app_nil_r. unfold truncated. by rewrite resize_resize.
  - rewrite Hw. eexists _, (S (S (clock fs))). split; [reflexivity|]. simpl.
    rewrite !lookup_alter_eq, Hf. simpl. rewrite Hdata.
    split; [done|split; [lia|by rewrite <- !app_assoc]].
Qed.

(** One call on a file that already holds [data], when no read fails:
    nothing is written, whatever else fails and whether or not the
    permissions are changed. *)
Lemma overwriteFileIfChanged_same phi path perm fs f :
  files fs !! path = Some f ->
  (forall k, (k < length (content f))%nat -> read_fault phi k = None) ->
  let fs' := (overwriteFileIfChanged phi path (content f) perm fs).2 in
  (exists f', files fs' !! path = Some f' /\ content f' = content f /\ mtime f' = mtime f) /\
  clock fs' = clock fs /\
  filter isWrite (trace fs') = filter isWrite (trace fs).
Proof.
  intros Hf Hread.
  assert (firstMismatch phi (content f) (content f) 0 = None) as Hscan.
  { apply firstMismatch_same. intros k Hk. apply Hread. lia. }
  assert (forall fs0 : filesystem, filter isWrite (trace fs0 ++ [OpChmod path perm])
                      = filter isWrite (trace fs0)) as Hlog.
  { intros fs0. rewrite filter_app. simpl. by rewrite app_nil_r. }
  unfold overwriteFileIfChanged, OpenFile.
  destruct (open_fault phi); [simpl; by eauto 10|]. rewrite Hf.
  assert (let r := Chmod phi path perm fs in
          (r.1 = None -> files r.2 !! path = Some (File (content f) perm (mtime f))) /\
          (exists f', files r.2 !! path = Some f' /\ content f' = content f /\ mtime f' = mtime f) /\
          clock r.2 = clock fs /\
          filter isWrite (trace r.2) = filter isWrite (trace fs)) as Hchmod.
  { unfold Chmod. destruct (chmod_fault phi); simpl.
    - split; [done|]. rewrite Hlog. eauto 10.
    - rewrite lookup_alter_eq, Hf. simpl. rewrite Hlog. eauto 10. }
  destruct (Chmod phi path perm fs) as [[err|] fs1] eqn:Hc; simpl in Hchmod;
    destruct Hchmod as (Hfile & Hkeep).
  - destruct (stat_fault phi); simpl; [done|]. rewrite Hf. case_decide; simpl; [|done].
    rewrite Hf. simpl. rewrite bool_decide_true by done. simpl. rewrite Hscan. simpl. eauto 10.
  - specialize (Hfile eq_refl).
    destruct (stat_fault phi); simpl.
    + rewrite Hfile. simpl. by rewrite Hscan.
    + rewrite Hf. case_decide; simpl.
      * rewrite Hf. simpl. rewrite bool_decide_true by done. simpl. rewrite Hscan. simpl. eauto 10.
      * rewrite Hfile. simpl. rewrite bool_decide_true by done. simpl.
        by rewrite Hscan.
Qed.

(** One call on an existing file when the calls that change it succeed
    (reads may fail): the result is [nil], the file holds [data], and the
    trace shows the steps taken. *)
Lemma overwriteFileIfChanged_existing phi path data perm fs f :
  files fs !! path = Some f ->
  open_fault phi = None -> stat_fault phi = None -> chmod_fault phi = None ->
  truncate_fault phi = None -> write_fault phi = None ->
  let chmod := if decide (Perm (mode f) = perm) then [] else [OpChmod path perm] in
  let offset :=
    if decide (length (content f) = length data)
    then firstMismatch phi (content f) data 0 else Some 0%nat in
  exists fs' t,
    overwriteFileIfChanged phi path data perm fs = (None, fs') /\
    files fs' !! path
      = Some (File data (if decide (Perm (mode f) = perm) then mode f else perm) t) /\
    match offset with
    | Some k =>
        trace fs' = trace fs ++ chmod
                      ++ [OpTruncate path (length data); OpWriteAt path k (drop k data)] /\
        (clock fs < t)%nat
    | None => trace fs' = trace fs ++ chmod /\ t = mtime f
    end.
Proof.
  intros Hf Ho Hs Hc Ht Hw. simpl.
  unfold overwriteFileIfChanged, OpenFile. rewrite Ho, Hf, Hs. simpl. rewrite Hf.
  set (f1 := File (content f) (if decide (Perm (mode f) = perm) then mode f else perm) (mtime f)).
  set (chmod := if decide (Perm (mode f) = perm) then [] else [OpChmod path perm]).
  assert (exists fs1,
    (if decide (Perm (mode f) = perm) then (None, fs) else Chmod phi path perm fs) = (None, fs1) /\
    files fs1 !! path = Some f1 /\ trace fs1 = trace fs ++ chmod /\ clock fs1 = clock fs)
    as (fs1 & -> & Hf1 & Htr & Hcl).
  { subst f1 chmod. case_decide.
    - exists fs. rewrite app_nil_r. destruct f; simpl in *. by rewrite Hf.
    - unfold Chmod. rewrite Hc. eexists. split; [done|]. simpl.
      by rewrite lookup_alter_eq, Hf. }
  rewrite Hf1. simpl.
  destruct (decide (length (content f) = length data)) as [Hlen|Hlen].
  - rewrite bool_decide_true by done. simpl.
    destruct (firstMismatch phi (content f) data 0) as [k|] eqn:Hscan.
    + apply firstMismatch_Some in Hscan as (j & -> & Hj & Hje & Htake & _).
      destruct (overwriteFile_ok phi path data (0 + j) fs1 f1 Ht Hw Hf1)
        as (fs' & t & -> & Hf' & Hclock & Htrace); simpl; try lia; try done.
      exists fs', t. rewrite Hf', Htrace, Htr, <- app_assoc. split_and!; try done. lia.
    + apply firstMismatch_None in Hscan as [Htake _].
      exists fs1, (mtime f). split; [done|]. rewrite Hf1. split_and!; try done.
      subst f1. do 2 f_equal. rewrite <- Hlen in Htake. by rewrite take_ge in Htake.
  - rewrite bool_decide_false by done. simpl.
    destruct (overwriteFile_ok phi path data 0 fs1 f1 Ht Hw Hf1)
      as (fs' & t & -> & Hf' & Hclock & Htrace); simpl; try lia; try done.
    exists fs', t. rewrite Hf', Htrace, Htr, <- app_assoc. split_and!; try done. lia.
Qed.

(** C1.  A file that has the size of the new data and the same bytes is not
    written: after the call, and after a second identical call, its content
    and its modification time are what they were, the clock has not moved
    and the trace has no new write, whether or not the permissions were
    changed, provided the reads of the comparison succeed. *)
Theorem overwriteFileIfChanged_identical_no_write phi1 phi2 path data perm fs f :
  files fs !! path = Some f ->
  length (content f) = length data ->
  (forall i, (i < length data)%nat -> content f !! i = data !! i) ->
  (forall k, (k < length data)%nat -> read_fault phi1 k = None /\ read_fault phi2 k = None) ->
  let once := (overwriteFileIfChanged phi1 path data perm fs).2 in
  let twice := (overwriteFileIfChanged phi2 path data perm once).2 in
  forall fs', fs' = once \/ fs' = twice ->
    (exists f', files fs' !! path = Some f' /\ content f' = content f /\ mtime f' = mtime f) /\
    clock fs' = clock fs /\
    filter isWrite (trace fs') = filter isWrite (trace fs).
Proof.
  intros Hf Hlen Hbytes Hread once twice.
  assert (content f = data) as Hdata.
  { apply list_eq. intros i. destruct (decide (i < length data)%nat); [by apply Hbytes|].
    rewrite !lookup_ge_None_2; [done|lia..]. }
  assert (forall k, (k < length (content f))%nat -> read_fault phi1 k = None) as Hr1.
  { intros k Hk. apply Hread. lia. }
  assert (forall k, (k < length (content f))%nat -> read_fault phi2 k = None) as Hr2.
  { intros k Hk. apply Hread. lia. }
  destruct (overwriteFileIfChanged_same phi1 path perm fs f Hf Hr1)
    as ((f1 & Hf1 & Hc1 & Hm1) & Hk1 & Ht1).
  rewrite Hdata in Hf1, Hk1, Ht1. fold once in Hf1, Hk1, Ht1.
  intros fs' [->| ->]; [by eauto 10|].
  rewrite <- Hc1 in Hr2.
  destruct (overwriteFileIfChanged_same phi2 path perm once f1 Hf1 Hr2)
    as ((f2 & Hf2 & Hc2 & Hm2) & Hk2 & Ht2).
  rewrite Hc1, Hdata in Hf2, Hk2, Ht2. fold twice in Hf2, Hk2, Ht2.
  split; [|split; congruence].
  exists f2. split; [done|]. split; congruence.
Qed.

(** C2.  On an existing file, when the calls that change it succeed, the
    file ends with exactly the new data, by these steps: a size that differs
    gives a truncation to the new length and a write of all the data at
    offset 0; an equal size gives a scan, and at the first offset [k] where
    a read fails or a byte differs a truncation to the new length and a
    write of the data from [k] on at offset [k]; a scan without mismatch
    gives no write. *)
Theorem overwriteFileIfChanged_reconciles phi path data perm fs f :
  files fs !! path = Some f ->
  open_fault phi = None -> stat_fault phi = None -> chmod_fault phi = None ->
  truncate_fault phi = None -> write_fault phi = None ->
  let chmod := if decide (Perm (mode f) = perm) then [] else [OpChmod path perm] in
  exists fs' f',
    overwriteFileIfChanged phi path data perm fs = (None, fs') /\
    files fs' !! path = Some f' /\ content f' = data /\
    ((length (content f) <> length data /\
      trace fs' = trace fs ++ chmod
                    ++ [OpTruncate path (length data); OpWriteAt path 0 data])
     \/
     (length (content f) = length data /\
      exists k, (k < length data)%nat /\
        (forall i, (i < k)%nat -> read_fault phi i = None /\ content f !! i = data !! i) /\
        (read_fault phi k <> None \/ content f !! k <> data !! k) /\
        trace fs' = trace fs ++ chmod
                      ++ [OpTruncate path (length data); OpWriteAt path k (drop k data)])
     \/
     (length (content f) = length data /\
      (forall i, (i < length data)%nat ->
         read_fault phi i = None /\ content f !! i = data !! i) /\
      trace fs' = trace fs ++ chmod /\ mtime f' = mtime f)).
Proof.
  intros Hf Ho Hs Hc Ht Hw chmod.
  destruct (overwriteFileIfChanged_existing phi path data perm fs f Hf Ho Hs Hc Ht Hw)
    as (fs' & t & Hrun & Hf' & Hsteps).
  exists fs', (File data (if decide (Perm (mode f) = perm) then mode f else perm) t).
  split; [done|]. split; [done|]. split; [done|].
  destruct (decide (length (content f) = length data)) as [Hlen|Hlen].
  - destruct (firstMismatch phi (content f) data 0) as [k|] eqn:Hscan.
    + right; left. split; [done|]. destruct Hsteps as [Htrace _].
      apply firstMismatch_Some in Hscan as (j & -> & Hj & Hje & Htake & Hreads & Hstop).
      simpl in *. exists j. split; [done|]. split; [|done].
      intros i Hi. split; [by apply Hreads|].
      rewrite <- (lookup_take_lt (content f) j i), <- (lookup_take_lt data j i) by done.
      by rewrite Htake.
    + right; right. split; [done|]. destruct Hsteps as [Htrace ->].
      apply firstMismatch_None in Hscan as [Htake Hreads].
      rewrite <- Hlen, take_ge in Htake by done.
      split; [|done]. intros i Hi. split; [by apply (Hreads i)|by rewrite Htake].
  - left. destruct Hsteps as [Htrace _]. by rewrite drop_0 in Htrace.
Qed.

End FileSynchronizer.

(** *** The file synchroniser on examples *)

Lemma overwriteFileIfChanged_identical_no_write_witness :
  let data := list_byte_of_string "AAAABBBB" in
  let once := (overwriteFileIfChanged no_faults "/out/flake.nix" data 493 exampleDisk).2 in
  let twice := (overwriteFileIfChanged no_faults "/out/flake.nix" data 493 once).2 in
  (exists f', files twice !! "/out/flake.nix" = Some f' /\
     content f' = data /\ mtime f' = 7%nat) /\
  clock twice = clock exampleDisk /\
  filter isWrite (trace twice) = filter isWrite (trace exampleDisk).
Proof.
  intros data once twice.
  refine (overwriteFileIfChanged_identical_no_write no_faults no_faults "/out/flake.nix"
            data 493 exampleDisk (File data 420 7) _ _ _ _ twice _).
  - vm_compute. reflexivity.
  - reflexivity.
  - reflexivity.
  - intros k _. split; reflexivity.
  - right. reflexivity.
Defined.

(** The permissions did change in that example: the first call is the one
    that applies the change, and it writes nothing. *)
Example identical_content_chmod_only :
  let data := list_byte_of_string "AAAABBBB" in
  let r := overwriteFileIfChanged no_faults "/out/flake.nix" data 493 exampleDisk in
  r.1 = None /\ files r.2 !! "/out/flake.nix" = Some (File data 493 7) /\
  trace r.2 = [OpChmod "/out/flake.nix" 493].
Proof. vm_compute. done. Qed.

Lemma overwriteFileIfChanged_reconciles_witness :
  let data := list_byte_of_string "AAAACCCC" in
  exists fs' f',
    overwriteFileIfChanged no_faults "/out/flake.nix" data 420 exampleDisk = (None, fs') /\
    files fs' !! "/out/flake.nix" = Some f' /\ content f' = data /\
    ((length (list_byte_of_string "AAAABBBB") <> length data /\
      trace fs' = trace exampleDisk ++ []
                    ++ [OpTruncate "/out/flake.nix" (length data);
                        OpWriteAt "/out/flake.nix" 0 data])
     \/
     (length (list_byte_of_string "AAAABBBB") = length data /\
      exists k, (k < length data)%nat /\
        (forall i, (i < k)%nat ->
           read_fault no_faults i = None /\ list_byte_of_string "AAAABBBB" !! i = data !! i) /\
        (read_fault no_faults k <> None \/ list_byte_of_string "AAAABBBB" !! k <> data !! k) /\
        trace fs' = trace exampleDisk ++ []
                      ++ [OpTruncate "/out/flake.nix" (length data);
                          OpWriteAt "/out/flake.nix" k (drop k data)])
     \/
     (length (list_byte_of_string "AAAABBBB") = length data /\
      (forall i, (i < length data)%nat ->
         read_fault no_faults i = None /\ list_byte_of_string "AAAABBBB" !! i = data !! i) /\
      trace fs' = trace exampleDisk ++ [] /\ mtime f' = 7%nat)).
Proof.
  intros data.
  exact (overwriteFileIfChanged_reconciles no_faults "/out/flake.nix" data 420 exampleDisk
           (File (list_byte_of_string "AAAABBBB") 420 7)
           eq_refl eq_refl eq_refl eq_refl eq_refl eq_refl).
Defined.

(** Existing ["AAAABBBB"], new ["AAAACCCC"]: the bytes from offset 4 on are
    rewritten and no others. *)
Example rewrite_from_first_mismatch :
  let r := overwriteFileIfChanged no_faults "/out/flake.nix"
             (list_byte_of_string "AAAACCCC") 420 exampleDisk in
  r.1 = None /\
  content <$> files r.2 !! "/out/flake.nix" = Some (list_byte_of_string "AAAACCCC") /\
  trace r.2 = [OpTruncate "/out/flake.nix" 8;
               OpWriteAt "/out/flake.nix" 4 (list_byte_of_string "CCCC")].
Proof. vm_compute. done. Qed.

(** An existing file longer than the new data is cut to the new length. *)
Example longer_file_is_truncated :
  let r := overwriteFileIfChanged no_faults "/out/flake.nix"
             (list_byte_of_string "AAAAB") 420 exampleDisk in
  r.1 = None /\
  content <$> files r.2 !! "/out/flake.nix" = Some (list_byte_of_string "AAAAB") /\
  trace r.2 = [OpTruncate "/out/flake.nix" 5;
               OpWriteAt "/out/flake.nix" 0 (list_byte_of_string "AAAAB")].
Proof. vm_compute. done. Qed.

(** A read that fails at offset 2 of an unchanged file: the rewrite starts
    there. *)
Example rewrite_from_read_error :
  let phi := Faults None None None (fun k => if decide (k = 2%nat) then Some EIO else None)
                    None None None None in
  let r := overwriteFileIfChanged phi "/out/flake.nix"
             (list_byte_of_string "AAAABBBB") 420 exampleDisk in
  r.1 = None /\
  content <$> files r.2 !! "/out/flake.nix" = Some (list_byte_of_string "AAAABBBB") /\
  trace r.2 = [OpTruncate "/out/flake.nix" 8;
               OpWriteAt "/out/flake.nix" 2 (list_byte_of_string "AABBBB")].
Proof. vm_compute. done. Qed.

(** The hypothesis of C2 on [Stat] is needed: when [Stat] fails the sizes
    are not compared, and a file that starts with the new data keeps its
    tail. *)
Remark stat_failure_skips_size_check :
  let phi := Faults None (Some EIO) None (fun _ => None) None None None None in
  let r := overwriteFileIfChanged phi "/out/flake.nix"
             (list_byte_of_string "AAAA") 420 exampleDisk in
  r.1 = None /\
  content <$> files r.2 !! "/out/flake.nix" = Some (list_byte_of_string "AAAABBBB").
Proof. vm_compute. done. Qed.

(** ** The manifest reader and the priority assigner *)

Section Manifests.
Context `{Filepath} `{EncodingJSON} `{MapRange} `{NixEnv}.

Implicit Types (elems : list element) (data : list byte).

Lemma foldr_max_acc (a x : Z) (l : list Z) :
  foldr Z.max (Z.max a x) l = Z.max x (foldr Z.max a l).
Proof. induction l as [|y l IH]; simpl; [lia|rewrite IH; lia]. Qed.

(** The loop of [nextPriority] computes the maximum of the priorities and
    of [DefaultPriority]. *)
Lemma maxPriority_foldr elems :
  maxPriority elems = foldr Z.max DefaultPriority (Priority <$> elems).
Proof.
  unfold maxPriority. generalize DefaultPriority as a.
  induction elems as [|e elems IH]; intros a; simpl; [done|].
  rewrite IH. case_bool_decide.
  - rewrite <- foldr_max_acc. f_equal. lia.
  - rewrite <- foldr_max_acc. f_equal. lia.
Qed.

Lemma foldr_max_perm (a : Z) (l1 l2 : list Z) :
  l1 ≡ₚ l2 -> foldr Z.max a l1 = foldr Z.max a l2.
Proof. induction 1; simpl; [done|congruence|lia|congruence]. Qed.

(** It does not depend on the order of the elements. *)
Lemma maxPriority_perm elems1 elems2 :
  Priority <$> elems1 ≡ₚ Priority <$> elems2 -> maxPriority elems1 = maxPriority elems2.
Proof. intros Hp. rewrite !maxPriority_foldr. by apply foldr_max_perm. Qed.

Lemma foldr_max_bounds (a b : Z) (l : list Z) :
  a <= b -> Forall (fun x => x <= b) l -> a <= foldr Z.max a l <= b.
Proof. intros Ha. induction 1; simpl; lia. Qed.

Lemma wrapInt_in_range z : minInt <= z <= maxInt -> wrapInt z = z.
Proof.
  unfold minInt, maxInt, wrapInt. intros Hz.
  rewrite Z.mod_small; lia.
Qed.

(** Every path of [readManifest] that returns an error returns it with the
    empty manifest. *)
Lemma readManifest_error profilePath m err :
  readManifest profilePath = (m, Some err) -> m = Manifest [].
Proof.
  unfold readManifest.
  destruct (ReadFile _) as [e|data]; [destruct (isNotExist e); congruence|].
  destruct (Unmarshal decodeMap _ _); [|congruence].
  destruct (Unmarshal decodeSlice _ _); congruence.
Qed.

(** C6 (amended).  While every priority of the manifest is below the
    largest [int], the next priority is the maximum of the priorities and of
    [DefaultPriority], which is 5, plus one. *)
Theorem nextPriority_max_plus_one profilePath :
  let m := (readManifest profilePath).1 in
  (forall e, e ∈ Elements m -> Priority e < maxInt) ->
  DefaultPriority = 5 /\
  nextPriority profilePath
    = formatInt (foldr Z.max DefaultPriority (Priority <$> Elements m) + 1).
Proof.
  intros m Hlt. split; [done|].
  unfold nextPriority. subst m. destruct (readManifest profilePath) as [m err]; simpl in *.
  rewrite maxPriority_foldr. f_equal. apply wrapInt_in_range.
  assert (DefaultPriority <= foldr Z.max DefaultPriority (Priority <$> Elements m) <= maxInt - 1)
    as Hb.
  { apply foldr_max_bounds; [done|].
    apply Forall_fmap, Forall_forall. intros e He. specialize (Hlt e He). simpl. lia. }
  unfold DefaultPriority, minInt, maxInt in *. lia.
Qed.

(** C7.  A manifest file that does not exist gives the empty manifest and
    no error; any other failure to read it is returned, with the empty
    manifest. *)
Theorem readManifest_read_failure profilePath err :
  ReadFile (Join profilePath "manifest.json") = inl err ->
  readManifest profilePath = (Manifest [], if isNotExist err then None else Some err).
Proof.
  intros Hread. unfold readManifest. rewrite Hread. by destruct (isNotExist err).
Qed.

(** *** The decoders on the two shapes *)

Lemma Unmarshal_object {A} (field : json -> A -> option A) (zero : A) data members :
  scan data = Some (JObject members) ->
  Unmarshal field zero data =
    match decodeMembers (fun k x a => if foldEq "elements" k then field x a else Some a)
                        members zero with
    | None => inl UnmarshalTypeError
    | Some a => inr a
    end.
Proof. intros Hscan. unfold Unmarshal. by rewrite Hscan. Qed.

Lemma decodeMembers_cons {A} (field : string -> json -> A -> option A) k x members (cur : A) :
  decodeMembers field ((k, x) :: members) cur
  = a ← field k x cur; decodeMembers field members a.
Proof.
  unfold decodeMembers. simpl. destruct (field k x cur) as [a|]; simpl; [done|].
  induction members as [|kv members IH]; simpl; [done|]. apply IH.
Qed.

(** Members that match no field, or carry [null], leave the nil map. *)
Lemma decodeMembers_no_elements members :
  (forall k v, (k, v) ∈ members -> foldEq "elements" k = true -> v = JNull) ->
  decodeMembers (fun k x a => if foldEq "elements" k then decodeMap x a else Some a)
                members (∅ : gmap string Z) = Some ∅.
Proof.
  induction members as [|[k v] members IH]; intros Hm; [done|].
  rewrite decodeMembers_cons.
  assert ((if foldEq "elements" k then decodeMap v ∅ else Some ∅) = Some (∅ : gmap string Z))
    as ->.
  { destruct (foldEq "elements" k) eqn:Hk; [|done].
    rewrite (Hm k v); [done|by left|done]. }
  simpl. apply IH. intros k' v' Hin. apply Hm. by right.
Qed.

Lemma decodeElement_doc p cur : inInt p -> decodeElement (elementDoc p) cur = Some p.
Proof.
  intros Hp. unfold decodeElement, elementDoc. rewrite decodeMembers_cons.
  rewrite foldEq_refl. simpl. by rewrite bool_decide_true.
Qed.

Lemma decodeArray_docs priorities cur :
  Forall inInt priorities -> decodeArray (elementDoc <$> priorities) cur = Some priorities.
Proof.
  intros Hps. revert cur. induction Hps as [|p ps Hp _ IH]; intros cur; [done|].
  rewrite fmap_cons. cbn [decodeArray]. rewrite (decodeElement_doc p _ Hp). simpl. by rewrite IH.
Qed.

Lemma decodeMap_docs entries (cur : gmap string Z) :
  Forall inInt entries.*2 ->
  decodeMap (JObject (prod_map id elementDoc <$> entries)) cur
  = Some (foldl (fun m kv => <[kv.1 := kv.2]> m) cur entries).
Proof.
  unfold decodeMap. revert cur. induction entries as [|[k p] entries IH]; intros cur Hps; [done|].
  apply Forall_cons in Hps as [Hp Hps]. rewrite fmap_cons. unfold prod_map at 1.
  rewrite decodeMembers_cons. cbn [fst snd id].
  rewrite (decodeElement_doc p _ Hp). simpl. by apply IH.
Qed.

Lemma foldl_insert_list_to_map (entries : list (string * Z)) :
  foldl (fun m kv => <[kv.1 := kv.2]> m) (∅ : gmap string Z) entries
  = list_to_map (reverse entries).
Proof.
  induction entries as [|kv entries IH] using rev_ind; [done|].
  rewrite foldl_app, reverse_app. simpl. by rewrite IH.
Qed.

(** A modern document decodes to the map of its entries. *)
Lemma Unmarshal_modernDoc data entries :
  scan data = Some (modernDoc entries) -> NoDup entries.*1 -> Forall inInt entries.*2 ->
  exists modern : gmap string Z,
    Unmarshal decodeMap ∅ data = inr modern /\ map_to_list modern ≡ₚ entries.
Proof.
  intros Hscan Hnodup Hps. exists (list_to_map (reverse entries)). split.
  - rewrite (Unmarshal_object _ _ _ _ Hscan), decodeMembers_cons, foldEq_refl.
    rewrite (decodeMap_docs _ _ Hps). simpl. by rewrite foldl_insert_list_to_map.
  - rewrite map_to_list_to_map; [apply reverse_Permutation|].
    by rewrite fmap_reverse, reverse_Permutation.
Qed.

(** A legacy document is refused by the modern decoder and decodes to the
    list of its priorities with the legacy one. *)
Lemma Unmarshal_legacyDoc data priorities :
  scan data = Some (legacyDoc priorities) -> Forall inInt priorities ->
  Unmarshal decodeMap ∅ data = inl UnmarshalTypeError /\
  Unmarshal decodeSlice [] data = inr priorities.
Proof.
  intros Hscan Hps. rewrite !(Unmarshal_object _ _ _ _ Hscan), !decodeMembers_cons, !foldEq_refl.
  simpl. split; [done|]. by rewrite (decodeArray_docs _ _ Hps).
Qed.

(** C5.  The modern decoder is tried first and its result is the one
    returned when it succeeds; the legacy decoder is tried only after the
    modern one has failed; when both fail, the (decode) error of the second
    is returned.  A document of the legacy shape is refused by the modern
    decoder, and a legacy and a modern manifest with the same priorities
    give manifests with the same priorities up to their order, hence with
    the same maximum. *)
Theorem readManifest_modern_then_legacy p data pm dm entries pl dl priorities :
  ReadFile (Join p "manifest.json") = inr data ->
  ReadFile (Join pm "manifest.json") = inr dm -> scan dm = Some (modernDoc entries) ->
  ReadFile (Join pl "manifest.json") = inr dl -> scan dl = Some (legacyDoc priorities) ->
  NoDup entries.*1 -> Forall inInt priorities -> entries.*2 ≡ₚ priorities ->
  match Unmarshal decodeMap ∅ data, Unmarshal decodeSlice [] data with
  | inr modern, _ =>
      readManifest p = (Manifest ((fun e => Element e.2) <$> mapRange modern), None)
  | inl _, inr legacy => readManifest p = (Manifest (Element <$> legacy), None)
  | inl _, inl err =>
      readManifest p = (Manifest [], Some err) /\ (err = SyntaxError \/ err = UnmarshalTypeError)
  end /\
  Unmarshal decodeMap ∅ dl = inl UnmarshalTypeError /\
  (readManifest pm).2 = None /\ (readManifest pl).2 = None /\
  Priority <$> Elements (readManifest pm).1 ≡ₚ Priority <$> Elements (readManifest pl).1 /\
  Priority <$> Elements (readManifest pl).1 = priorities /\
  maxPriority (Elements (readManifest pm).1) = maxPriority (Elements (readManifest pl).1).
Proof.
  intros Hp Hpm Hdm Hpl Hdl Hnodup Hps Hperm.
  assert (Forall inInt entries.*2) as Hes by by rewrite Hperm.
  destruct (Unmarshal_modernDoc dm entries Hdm Hnodup Hes) as (modern & Hmodern & Hlist).
  destruct (Unmarshal_legacyDoc dl priorities Hdl Hps) as [Hrefused Hlegacy].
  assert (readManifest pm = (Manifest ((fun e => Element e.2) <$> mapRange modern), None)) as Hm.
  { unfold readManifest. by rewrite Hpm, Hmodern. }
  assert (readManifest pl = (Manifest (Element <$> priorities), None)) as Hl.
  { unfold readManifest. by rewrite Hpl, Hrefused, Hlegacy. }
  assert (Priority <$> Elements (readManifest pm).1 ≡ₚ priorities) as Hpm_ps.
  { rewrite Hm. simpl. rewrite <- list_fmap_compose.
    rewrite (mapRange_perm modern), Hlist. by rewrite <- Hperm. }
  assert (Priority <$> Elements (readManifest pl).1 = priorities) as Hpl_ps.
  { rewrite Hl. simpl. rewrite <- list_fmap_compose. apply list_fmap_id. }
  split_and!.
  - unfold readManifest. rewrite Hp.
    destruct (Unmarshal decodeMap ∅ data) as [e1|modern1]; [|done].
    destruct (Unmarshal decodeSlice [] data) as [e2|legacy1] eqn:He2; [|done].
    split; [done|]. unfold Unmarshal in He2. destruct (scan data) as [v|]; [|naive_solver].
    destruct v; try naive_solver;
      destruct (decodeMembers _ _ _); naive_solver.
  - done.
  - by rewrite Hm.
  - by rewrite Hl.
  - by rewrite Hpm_ps, Hpl_ps.
  - done.
  - apply maxPriority_perm. by rewrite Hpm_ps, Hpl_ps.
Qed.

(** C10 (amended).  A manifest file that holds a JSON object none of whose
    keys matches the field name "elements" (the decoder matches a key to
    the name exactly or with the letter case ignored), or whose matching
    keys all carry [null], is read by the modern decoder as the empty
    manifest, without an error; the next priority is then 6, as for a missing
    manifest. *)
Theorem readManifest_no_elements profilePath data members :
  ReadFile (Join profilePath "manifest.json") = inr data ->
  scan data = Some (JObject members) ->
  (forall k v, (k, v) ∈ members -> foldEq "elements" k = true -> v = JNull) ->
  Unmarshal decodeMap ∅ data = inr ∅ /\
  readManifest profilePath = (Manifest [], None) /\
  nextPriority profilePath = "6".
Proof.
  intros Hread Hscan Hmembers.
  assert (Unmarshal decodeMap ∅ data = inr ∅) as Hmodern.
  { by rewrite (Unmarshal_object _ _ _ _ Hscan), decodeMembers_no_elements. }
  assert (readManifest profilePath = (Manifest [], None)) as Hm.
  { unfold readManifest. rewrite Hread, Hmodern.
    pose proof (mapRange_perm ∅) as Hrange. rewrite map_to_list_empty in Hrange.
    apply Permutation_nil_r in Hrange. by rewrite Hrange. }
  split_and!; [done..|]. unfold nextPriority. by rewrite Hm.
Qed.

(** *** The install operation *)






(** C3 (amended).  When the guard lets the install through and the manifest
    reader returns an error (the file is there and cannot be read, or
    cannot be decoded), [nextPriority] drops that error: the priority is 6,
    as for an empty manifest, the install command is run with it, and the
    result of [ProfileInstall] is the result of the command. *)
Theorem ProfileInstall_drops_manifest_error args m err :
  IsInsecureAllowed = true \/ PackageIsInsecure (Installable args) = false ->
  readManifest (ProfilePath args) = (m, Some err) ->
  nextPriority (ProfilePath args) = "6" /\
  ProfileInstall args = (Run (installCmd args), [installCmd args]) /\
  Args (installCmd args)
  = Args (commandContext ["profile"; "install"; "--profile"; ProfilePath args;
                          "--impure"; "--priority"; "6"])
      ++ (if Offline args then ["--offline"] else []) ++ [Installable args].
Proof.
  intros Hguard Hm.
  assert (nextPriority (ProfilePath args) = "6") as Hnext.
  { unfold nextPriority. rewrite Hm. by rewrite (readManifest_error _ _ _ Hm). }
  split_and!; [done| |].
  - unfold ProfileInstall. by destruct Hguard as [-> | ->]; rewrite ?andb_false_r.
  - unfold installCmd. simpl. rewrite Hnext. destruct (Offline args); [|done].
    by rewrite <- app_assoc.
Qed.

End Manifests.

(** *** The manifest reader and the install operation on examples *)

(** C3, as stated, fails: the manifest of ["/denied"] exists and cannot be
    read, the manifest of ["/broken"] cannot be decoded, the reader returns
    the error in both cases, and [ProfileInstall] returns [nil] after
    running the install command with priority 6. *)
Lemma ProfileInstall_manifest_error_not_propagated :
  @readManifest unixPath asciiJSON listedRange strict "/denied"
    = (Manifest [], Some (ErrSys EACCES)) /\
  @readManifest unixPath asciiJSON listedRange strict "/broken"
    = (Manifest [], Some UnmarshalTypeError) /\
  forall profilePath, profilePath = "/denied" \/ profilePath = "/broken" ->
    @ProfileInstall unixPath asciiJSON listedRange strict (installArgs "hello" profilePath)
    = (None,
       [{| Args := ["nix"; "profile"; "install"; "--profile"; profilePath; "--impure";
                    "--priority"; "6"; "hello"];
           Env := ["NIXPKGS_ALLOW_UNFREE=1"];
           Stdin := Some OsStdin;
           Stdout := Some (Writer 1);
           Stderr := Some (Writer 1) |}]).
Proof.
  split; [by vm_compute|]. split; [by vm_compute|].
  intros profilePath [-> | ->]; by vm_compute.
Qed.

Lemma ProfileInstall_drops_manifest_error_witness :
  @nextPriority unixPath asciiJSON listedRange strict "/denied" = "6" /\
  @ProfileInstall unixPath asciiJSON listedRange strict (installArgs "hello" "/denied")
  = (None, [@installCmd unixPath asciiJSON listedRange strict (installArgs "hello" "/denied")]) /\
  Args (@installCmd unixPath asciiJSON listedRange strict (installArgs "hello" "/denied"))
  = ["nix"; "profile"; "install"; "--profile"; "/denied"; "--impure"; "--priority"; "6"; "hello"].
Proof.
  apply (@ProfileInstall_drops_manifest_error unixPath asciiJSON listedRange strict
           (installArgs "hello" "/denied") (Manifest []) (ErrSys EACCES)).
  - right. reflexivity.
  - vm_compute. reflexivity.
Defined.

Lemma readManifest_modern_then_legacy_witness :
  @readManifest unixPath asciiJSON listedRange strict "/legacy"
    = (Manifest [Element 5; Element 9], None) /\
  @Unmarshal asciiJSON _ decodeMap ∅ legacy59 = inl UnmarshalTypeError /\
  (@readManifest unixPath asciiJSON listedRange strict "/modern").2 = None /\
  (@readManifest unixPath asciiJSON listedRange strict "/legacy").2 = None /\
  Priority <$> Elements (@readManifest unixPath asciiJSON listedRange strict "/modern").1
    ≡ₚ Priority <$> Elements (@readManifest unixPath asciiJSON listedRange strict "/legacy").1 /\
  Priority <$> Elements (@readManifest unixPath asciiJSON listedRange strict "/legacy").1
    = [5; 9] /\
  maxPriority (Elements (@readManifest unixPath asciiJSON listedRange strict "/modern").1)
    = maxPriority (Elements (@readManifest unixPath asciiJSON listedRange strict "/legacy").1).
Proof.
  refine (@readManifest_modern_then_legacy unixPath asciiJSON listedRange strict
            "/legacy" legacy59 "/modern" modern59 [("hello", 5); ("cowsay", 9)]
            "/legacy" legacy59 [5; 9] _ _ _ _ _ _ _ _).
  - reflexivity.
  - reflexivity.
  - vm_compute. reflexivity.
  - reflexivity.
  - vm_compute. reflexivity.
  - by apply (bool_decide_unpack _).
  - repeat constructor; by vm_compute.
  - reflexivity.
Defined.

(** The manifests of the two shapes with the priorities 5 and 9: the maximum
    is 9 for both, and the next priority 10. *)
Example legacy_and_modern_maximum :
  maxPriority (Elements (@readManifest unixPath asciiJSON listedRange strict "/legacy").1) = 9 /\
  maxPriority (Elements (@readManifest unixPath asciiJSON listedRange strict "/modern").1) = 9 /\
  @nextPriority unixPath asciiJSON listedRange strict "/legacy" = "10" /\
  @nextPriority unixPath asciiJSON listedRange strict "/modern" = "10".
Proof. by vm_compute. Qed.

(** C6, as stated, fails at the largest [int]: the maximum plus one is
    9223372036854775808, and the code returns the smallest [int]. *)
Lemma nextPriority_wraps_at_largest_int :
  Elements (@readManifest unixPath asciiJSON listedRange strict "/largest").1
    = [Element 9223372036854775807] /\
  formatInt (foldr Z.max DefaultPriority [9223372036854775807] + 1) = "9223372036854775808" /\
  @nextPriority unixPath asciiJSON listedRange strict "/largest" = "-9223372036854775808".
Proof. by vm_compute. Qed.

Lemma nextPriority_max_plus_one_witness :
  DefaultPriority = 5 /\
  @nextPriority unixPath asciiJSON listedRange strict "/three"
  = formatInt (foldr Z.max DefaultPriority [5; 7; 3] + 1).
Proof.
  apply (@nextPriority_max_plus_one unixPath asciiJSON listedRange strict "/three").
  intros e He. vm_compute in He.
  apply list_elem_of_In in He. simpl in He.
  destruct He as [<-|[<-|[<-|[]]]]; by vm_compute.
Defined.

(** The empty manifest gives 6; the priorities 5, 7 and 3 give 8. *)
Example nextPriority_empty_and_three :
  @nextPriority unixPath asciiJSON listedRange strict "/missing" = "6" /\
  @nextPriority unixPath asciiJSON listedRange strict "/three" = "8".
Proof. by vm_compute. Qed.

Lemma readManifest_read_failure_witness :
  @readManifest unixPath asciiJSON listedRange strict "/missing" = (Manifest [], None) /\
  @readManifest unixPath asciiJSON listedRange strict "/denied"
    = (Manifest [], Some (ErrSys EACCES)).
Proof.
  split.
  - exact (@readManifest_read_failure unixPath asciiJSON listedRange strict
             "/missing" ErrNotExist eq_refl).
  - exact (@readManifest_read_failure unixPath asciiJSON listedRange strict
             "/denied" (ErrSys EACCES) eq_refl).
Defined.


(** The text of the error in that example. *)
Example insecure_message_text :
  (@ProfileInstall unixPath asciiJSON listedRange strict (installArgs "openssl-1.0" "/legacy")).1
  = Some (UserErr ("Package openssl-1.0 is insecure. " +:+ newline +:+ newline
                   +:+ "Known vulnerabilities: [CVE-1 CVE-2] " +:+ newline +:+ newline
                   +:+ "To override use `devbox add <pkg> --allow-insecure`")).
Proof. by vm_compute. Qed.

(** C10, as stated, fails: the object of ["/capital"] has no key
    ["elements"], the key [Elements] matches the field all the same, the
    modern decoder fails on its array and the manifest comes from the legacy
    decoder, with the priority 9; the next priority is 10. *)
Lemma readManifest_capital_key_matches :
  (exists members,
     scan (quoted "{'version':2,'Elements':[{'priority':9}]}") = Some (JObject members) /\
     "elements" ∉ members.*1) /\
  @readManifest unixPath asciiJSON listedRange strict "/capital"
    = (Manifest [Element 9], None) /\
  @nextPriority unixPath asciiJSON listedRange strict "/capital" = "10".
Proof.
  split; [|by vm_compute].
  eexists. split; [by vm_compute|]. by apply (bool_decide_unpack _).
Qed.

Lemma readManifest_no_elements_witness :
  @Unmarshal asciiJSON _ decodeMap ∅ (quoted "{'version':2,'elements':null}") = inr ∅ /\
  @readManifest unixPath asciiJSON listedRange strict "/other" = (Manifest [], None) /\
  @nextPriority unixPath asciiJSON listedRange strict "/other" = "6".
Proof.
  apply (@readManifest_no_elements unixPath asciiJSON listedRange strict "/other"
           (quoted "{'version':2,'elements':null}")
           [("version", JInt 2); ("elements", JNull)]).
  - reflexivity.
  - vm_compute. reflexivity.
  - intros k v Hin Hk. apply list_elem_of_In in Hin. simpl in Hin.
    destruct Hin as [[= <- <-]|[[= <- <-]|[]]]; [by vm_compute in Hk|done].
Defined.

(** ** The template renderer and the tracked-file bootstrapper *)

Section Shellgen.
Context `{Filepath} `{Templates} `{ShellgenEnv}.

Implicit Types (w : world) (phi : faults).

(** C9.  Rendering and writing are two steps.  A template that cannot be
    resolved, or whose execution fails, leaves the disk as it was, whatever
    the execution had already written into the buffer; the file
    synchroniser is called only after an execution without error, with the
    complete output. *)
Theorem writeFromTemplate_renders_before_writing phi path plan tmplName generatedName w :
  let tmplKey := tmplName +:+ ".tmpl" in
  let r := writeFromTemplate phi path plan tmplName generatedName w in
  (forall err, getTemplate tmplKey w = inl err -> r = (Some err, w)) /\
  (forall tmpl w1 out err,
     getTemplate tmplKey w = inr (tmpl, w1) -> Execute tmpl plan = (out, Some err) ->
     r.1 = Some (Redacted "execute template %s: %v" [tmplKey] err) /\
     disk r.2 = disk w /\ tmplBuf r.2 = out) /\
  (forall tmpl w1 out,
     getTemplate tmplKey w = inr (tmpl, w1) -> Execute tmpl plan = (out, None) ->
     let sync := overwriteFileIfChanged phi (Join path generatedName) out 420 (disk w) in
     tmplBuf r.2 = out /\ disk r.2 = sync.2 /\
     r.1 = (Redacted "write %s to file: %v" [tmplName]) <$> sync.1).
Proof.
  intros tmplKey r.
  assert (forall tmpl w1, getTemplate tmplKey w = inr (tmpl, w1) -> disk w1 = disk w) as Hdisk.
  { unfold getTemplate. intros tmpl w1. destruct (tmplCache w !! tmplKey); [congruence|].
    destruct (ParseFS _ _); [done|]. by intros [= _ <-]. }
  subst r. unfold writeFromTemplate. fold tmplKey. split_and!.
  - by intros err ->.
  - intros tmpl w1 out err Hget Hexec. rewrite Hget, Hexec. simpl. eauto.
  - intros tmpl w1 out Hget Hexec. rewrite Hget, Hexec. simpl.
    rewrite (Hdisk _ _ Hget).
    by destruct (overwriteFileIfChanged _ _ _ _ _) as [[err|] fs].
Qed.

(** [writeFromTemplate] runs no command. *)
Lemma writeFromTemplate_spawned phi path plan tmplName generatedName w :
  spawned (writeFromTemplate phi path plan tmplName generatedName w).2 = spawned w.
Proof.
  unfold writeFromTemplate, getTemplate.
  destruct (tmplCache w !! _); [|destruct (ParseFS _ _); [done|]];
    destruct (Execute _ _) as [out [err|]]; simpl; try done;
    by destruct (overwriteFileIfChanged _ _ _ _ _) as [[err|] fs].
Qed.

Lemma ancestor_succ n dir : ancestor (S n) dir = ancestor n (Dir dir).
Proof. apply Nat.iter_succ_r. Qed.

(** The walk of [isProjectInGitRepo] when it finds no marker: [n] levels
    without one, then the root, or a directory where [os.Stat] fails with
    another error than not-found. *)
Lemma isProjectInGitRepo_false fuel n dir fs :
  (forall i, (i < n)%nat ->
     ancestor i dir <> "/" /\
     exists err, Stat (Join (ancestor i dir) ".git") fs = Some err /\ isNotExist err = true) ->
  (ancestor n dir = "/" \/
   (exists err, Stat (Join (ancestor n dir) ".git") fs = Some err /\ isNotExist err = false)) ->
  (n < fuel)%nat ->
  isProjectInGitRepo fuel dir fs = Some false.
Proof.
  revert fuel dir. induction n as [|n IH]; intros fuel dir Hwalk Hend Hfuel.
  - destruct fuel as [|fuel]; [lia|]. simpl in *.
    destruct Hend as [->|(err & Hstat & Hother)]; [done|].
    case_decide; [done|]. by rewrite Hstat, Hother.
  - destruct fuel as [|fuel]; [lia|]. simpl.
    destruct (Hwalk 0%nat) as (Hroot & err & Hstat & Hnone); [lia|]. simpl in *.
    rewrite decide_False by done. rewrite Hstat, Hnone. simpl.
    apply IH; [|by rewrite <- ancestor_succ|lia].
    intros i Hi. rewrite <- ancestor_succ. apply Hwalk. lia.
Qed.

(** C4 (amended).  After the flake file is written, [makeFlakeFile] walks
    up from the output path.  If every [os.Stat] on the way to the root
    fails with not-found, nothing more is done and no error is returned;
    and if one of them fails with another error, the walk stops there and
    the outcome is the same: no command is run, no error is returned. *)
Theorem makeFlakeFile_without_marker fuel phi d outPath plan w w1 n :
  writeFromTemplate phi (FlakePath d) plan flakeTemplate "flake.nix" w = (None, w1) ->
  (forall i, (i < n)%nat ->
     ancestor i outPath <> "/" /\
     Stat (Join (ancestor i outPath) ".git") (disk w1) = Some ErrNotExist) ->
  (ancestor n outPath = "/" \/
   (exists err, Stat (Join (ancestor n outPath) ".git") (disk w1) = Some err /\
                isNotExist err = false)) ->
  (n < fuel)%nat ->
  isProjectInGitRepo fuel outPath (disk w1) = Some false /\
  makeFlakeFile fuel phi d outPath plan w = Some (None, w1) /\
  spawned w1 = spawned w.
Proof.
  intros Hwrite Hwalk Hend Hfuel.
  assert (isProjectInGitRepo fuel outPath (disk w1) = Some false) as Hrepo.
  { apply (isProjectInGitRepo_false fuel n); [|done..].
    intros i Hi. destruct (Hwalk i Hi) as [Hroot Hstat]. eauto. }
  split_and!; [done| |].
  - unfold makeFlakeFile. by rewrite Hwrite, Hrepo.
  - rewrite <- (writeFromTemplate_spawned phi (FlakePath d) plan flakeTemplate "flake.nix" w).
    by rewrite Hwrite.
Qed.

End Shellgen.

(** *** The generator on examples *)

Lemma writeFromTemplate_renders_before_writing_witness :
  let r := @writeFromTemplate unixPath badTemplates no_faults "/proj/.devbox/gen/flake" tt
             "flake.nix" "flake.nix" (@projectWorld badTemplates true) in
  r.1 = Some (Redacted "execute template %s: %v" ["flake.nix.tmpl"]
                (UserErr "can't evaluate field Packages")) /\
  disk r.2 = projectDisk true /\
  @tmplBuf badTemplates r.2 = list_byte_of_string "{ ne".
Proof.
  intros r.
  refine (proj1 (proj2 (@writeFromTemplate_renders_before_writing unixPath badTemplates
            no_faults "/proj/.devbox/gen/flake" tt "flake.nix" "flake.nix"
            (@projectWorld badTemplates true)))
            (list_byte_of_string "{ ne", Some (UserErr "can't evaluate field Packages"))
            _ (list_byte_of_string "{ ne") (UserErr "can't evaluate field Packages") _ _).
  - vm_compute. reflexivity.
  - reflexivity.
Defined.

(** The same call with a template that renders rewrites the file. *)
Example writeFromTemplate_good_render :
  let r := @writeFromTemplate unixPath goodTemplates no_faults "/proj/.devbox/gen/flake" tt
             "flake.nix" "flake.nix" (@projectWorld goodTemplates true) in
  r.1 = None /\
  content <$> files (disk r.2) !! "/proj/.devbox/gen/flake/flake.nix"
    = Some (list_byte_of_string "{ new }").
Proof. by vm_compute. Qed.

(** C4, as stated, fails: the project is under version control, [os.Stat]
    is refused (an error other than not-found) on the first directory of the
    walk, and [makeFlakeFile] returns [nil] without running a command; with
    no such error it finds the marker of ["/proj"] and runs [git init] and
    [git add]. *)
Lemma makeFlakeFile_stat_error_not_propagated :
  @Stat (exampleShellgen deniedMarker) "/proj/.devbox/gen/.git" (projectDisk true)
    = Some (ErrSys EACCES) /\
  (exists w1,
     @makeFlakeFile unixPath goodTemplates (exampleShellgen deniedMarker) 8 no_faults tt
       "/proj/.devbox/gen" tt (@projectWorld goodTemplates true) = Some (None, w1) /\
     @spawned goodTemplates w1 = []) /\
  (exists w1,
     @makeFlakeFile unixPath goodTemplates (exampleShellgen (fun _ => None)) 8 no_faults tt
       "/proj/.devbox/gen" tt (@projectWorld goodTemplates true) = Some (None, w1) /\
     Args <$> @spawned goodTemplates w1
       = [["git"; "-C"; "/proj/.devbox/gen/flake"; "init"];
          ["git"; "-C"; "/proj/.devbox/gen/flake"; "add"; "flake.nix"]]).
Proof.
  split; [by vm_compute|]. split; eexists; split; by vm_compute.
Qed.

Lemma makeFlakeFile_without_marker_witness :
  let w1 := (@writeFromTemplate unixPath goodTemplates no_faults "/proj/.devbox/gen/flake" tt
               "flake.nix" "flake.nix" (@projectWorld goodTemplates false)).2 in
  @isProjectInGitRepo unixPath (exampleShellgen (fun _ => None)) 8 "/proj/.devbox/gen"
    (@disk goodTemplates w1) = Some false /\
  @makeFlakeFile unixPath goodTemplates (exampleShellgen (fun _ => None)) 8 no_faults tt
    "/proj/.devbox/gen" tt (@projectWorld goodTemplates false) = Some (None, w1) /\
  @spawned goodTemplates w1 = [].
Proof.
  intros w1.
  refine (@makeFlakeFile_without_marker unixPath goodTemplates (exampleShellgen (fun _ => None))
            8 no_faults tt "/proj/.devbox/gen" tt (@projectWorld goodTemplates false) w1 3
            _ _ _ _).
  - vm_compute. reflexivity.
  - intros i Hi. destruct i as [|[|[|i]]]; [by vm_compute..|lia].
  - left. reflexivity.
  - lia.
Defined.

(** * Further properties *)

(** ** The file synchroniser: new files, failures, other files *)

Section FileSynchronizerMore.
Context `{Filepath}.

Implicit Types (phi : faults) (fs : filesystem) (f : file) (data : list byte).

(** The file calls leave the files at other paths alone. *)
Lemma Truncate_other phi path size fs q :
  q <> path -> files (Truncate phi path size fs).2 !! q = files fs !! q.
Proof.
  intros Hq. unfold Truncate. destruct (truncate_fault phi); simpl; [done|].
  by rewrite lookup_alter_ne.
Qed.

Lemma WriteAt_other phi path b offset fs q :
  q <> path -> files (WriteAt phi path b offset fs).2 !! q = files fs !! q.
Proof.
  intros Hq. unfold WriteAt. destruct b; [done|].
  destruct (write_fault phi) as [[n e]|]; simpl; [case_decide; simpl|];
    by rewrite ?lookup_alter_ne.
Qed.

Lemma Chmod_other phi path perm fs q :
  q <> path -> files (Chmod phi path perm fs).2 !! q = files fs !! q.
Proof.
  intros Hq. unfold Chmod. destruct (chmod_fault phi); simpl; [done|].
  by rewrite lookup_alter_ne.
Qed.

Lemma overwriteFile_other phi path data offset fs q :
  q <> path -> files (overwriteFile phi path data offset fs).2 !! q = files fs !! q.
Proof.
  intros Hq. unfold overwriteFile.
  pose proof (Truncate_other phi path (length data) fs q Hq) as Ht.
  destruct (Truncate phi path (length data) fs) as [[err|] fs1]; simpl in *; [done|].
  by rewrite WriteAt_other.
Qed.

Lemma overwriteFileIfChanged_other phi path data perm fs q :
  q <> path -> files (overwriteFileIfChanged phi path data perm fs).2 !! q = files fs !! q.
Proof.
  intros Hq. unfold overwriteFileIfChanged.
  assert (files (OpenFile phi path perm fs).2 !! q = files fs !! q) as Hopen.
  { unfold OpenFile. destruct (open_fault phi); [done|].
    destruct (files fs !! path); [done|]. case_decide; simpl; [|done].
    by rewrite lookup_insert_ne. }
  destruct (OpenFile phi path perm fs) as [[err|] fs1]; simpl in Hopen.
  - destruct (isNotExist err); [|done].
    unfold MkdirAll. destruct (mkdir_fault phi); simpl; [done|].
    unfold WriteFile. destruct (writefile_fault phi); simpl; [done|].
    destruct (files fs1 !! path); simpl; by rewrite ?lookup_alter_ne, ?lookup_insert_ne.
  - set (fi := match stat_fault phi with Some _ => None | None => files fs1 !! path end).
    assert (forall r, r = (match fi with
                 | Some fi => if decide (Perm (mode fi) = perm) then (None, fs1)
                              else Chmod phi path perm fs1
                 | None => Chmod phi path perm fs1
                 end) -> files r.2 !! q = files fs !! q) as Hchmod.
    { intros r ->. destruct fi as [fi0|]; [case_decide|]; simpl; try done;
        by rewrite Chmod_other. }
    destruct (match fi with Some _ => _ | None => _ end) as [[err|] fs2];
      specialize (Hchmod _ eq_refl); simpl in Hchmod; [done|].
    destruct (match fi with Some _ => _ | None => _ end);
      [by rewrite overwriteFile_other|].
    destruct (firstMismatch _ _ _ _); [by rewrite overwriteFile_other|done].
Qed.

(** A missing file in a missing directory: the directory is made and the
    file written. *)
Lemma overwriteFileIfChanged_new_directory phi path data perm fs :
  files fs !! path = None -> Dir path ∉ dirs fs ->
  open_fault phi = None -> mkdir_fault phi = None -> writefile_fault phi = None ->
  exists fs',
    overwriteFileIfChanged phi path data perm fs = (None, fs') /\
    files fs' !! path = Some (File data (N.ldiff (Perm perm) (umask fs)) (S (clock fs))) /\
    Dir path ∈ dirs fs' /\
    trace fs' = trace fs ++ [OpMkdirAll (Dir path) 448; OpWriteFile path data perm].
Proof.
  intros Hf Hd Ho Hm Hw. unfold overwriteFileIfChanged, OpenFile.
  rewrite Ho, Hf, decide_False by done. simpl.
  unfold MkdirAll. rewrite Hm. unfold WriteFile. rewrite Hw. simpl. rewrite Hf.
  eexists. split; [reflexivity|].
  unfold create, log; cbn [files dirs trace clock umask]. rewrite lookup_insert_eq.
  split_and!; [done| |by rewrite <- app_assoc].
  set_solver.
Qed.

(** A missing file in an existing directory: opening creates it, and the
    call goes on as on the empty file. *)
Lemma overwriteFileIfChanged_created phi path data perm fs :
  files fs !! path = None -> Dir path ∈ dirs fs -> open_fault phi = None ->
  let fs0 := create path [] perm (log (OpCreate path perm) fs) in
  files fs0 !! path = Some (File [] (N.ldiff (Perm perm) (umask fs)) (S (clock fs))) /\
  overwriteFileIfChanged phi path data perm fs = overwriteFileIfChanged phi path data perm fs0.
Proof.
  intros Hf Hd Ho fs0.
  assert (files fs0 !! path = Some (File [] (N.ldiff (Perm perm) (umask fs)) (S (clock fs))))
    as Hf0 by (subst fs0; simpl; by rewrite lookup_insert_eq).
  split; [done|]. unfold overwriteFileIfChanged, OpenFile.
  by rewrite Ho, Hf, Hf0, decide_True.
Qed.

(** A first call whose file calls succeed leaves a file that holds [data],
    whether the file was there, was missing, or lacked its directory. *)
Lemma overwriteFileIfChanged_content phi path data perm fs :
  open_fault phi = None -> stat_fault phi = None -> chmod_fault phi = None ->
  truncate_fault phi = None -> write_fault phi = None ->
  mkdir_fault phi = None -> writefile_fault phi = None ->
  exists fs' f',
    overwriteFileIfChanged phi path data perm fs = (None, fs') /\
    files fs' !! path = Some f' /\ content f' = data.
Proof.
  intros Ho Hs Hc Ht Hw Hm Hwf.
  destruct (files fs !! path) as [f|] eqn:Hf.
  - destruct (overwriteFileIfChanged_existing phi path data perm fs f Hf Ho Hs Hc Ht Hw)
      as (fs' & t & Hrun & Hf' & _). eauto.
  - destruct (decide (Dir path ∈ dirs fs)) as [Hd|Hd].
    + destruct (overwriteFileIfChanged_created phi path data perm fs Hf Hd Ho) as [Hf0 ->].
      destruct (overwriteFileIfChanged_existing phi path data perm _ _ Hf0 Ho Hs Hc Ht Hw)
        as (fs' & t & Hrun & Hf' & _). eauto.
    + destruct (overwriteFileIfChanged_new_directory phi path data perm fs Hf Hd Ho Hm Hwf)
        as (fs' & Hrun & Hf' & _). eauto.
Qed.

(** X1.  A file that is missing, in a directory that is missing: the
    directory is made with [0o700], the file is written with [data], its
    permissions are [perm] less the bits of the umask, and these are the
    only two file calls. *)
Theorem overwriteFileIfChanged_makes_directory phi path data perm fs :
  files fs !! path = None -> Dir path ∉ dirs fs ->
  open_fault phi = None -> mkdir_fault phi = None -> writefile_fault phi = None ->
  exists fs' f',
    overwriteFileIfChanged phi path data perm fs = (None, fs') /\
    files fs' !! path = Some f' /\ content f' = data /\
    mode f' = N.ldiff (Perm perm) (umask fs) /\
    Dir path ∈ dirs fs' /\
    trace fs' = trace fs ++ [OpMkdirAll (Dir path) 448; OpWriteFile path data perm].
Proof.
  intros Hf Hd Ho Hm Hw.
  destruct (overwriteFileIfChanged_new_directory phi path data perm fs Hf Hd Ho Hm Hw)
    as (fs' & Hrun & Hf' & Hdir & Htrace).
  exists fs', (File data (N.ldiff (Perm perm) (umask fs)) (S (clock fs))). by split_and!.
Qed.

(** X2.  A file that is missing, in a directory that is there: opening
    creates it, and the call ends with a file that holds [data] and whose
    permission bits are exactly [perm], whatever the umask. *)
Theorem overwriteFileIfChanged_creates_file phi path data perm fs :
  files fs !! path = None -> Dir path ∈ dirs fs -> Perm perm = perm ->
  open_fault phi = None -> stat_fault phi = None -> chmod_fault phi = None ->
  truncate_fault phi = None -> write_fault phi = None ->
  exists fs' f',
    overwriteFileIfChanged phi path data perm fs = (None, fs') /\
    files fs' !! path = Some f' /\ content f' = data /\ Perm (mode f') = perm /\
    exists rest, trace fs' = trace fs ++ OpCreate path perm :: rest.
Proof.
  intros Hf Hd Hperm Ho Hs Hc Ht Hw.
  destruct (overwriteFileIfChanged_created phi path data perm fs Hf Hd Ho) as [Hf0 ->].
  destruct (overwriteFileIfChanged_existing phi path data perm _ _ Hf0 Ho Hs Hc Ht Hw)
    as (fs' & t & Hrun & Hf' & Hsteps).
  eexists fs', _. split; [done|]. split; [exact Hf'|]. split; [done|]. split.
  - cbn [mode]. by destruct (decide (Perm (N.ldiff (Perm perm) (umask fs)) = perm)).
  - cbn [mode content mtime] in Hsteps.
    destruct (if decide (length _ = length data) then _ else _) as [k|];
      destruct Hsteps as [-> _]; cbn [create log trace]; rewrite <- app_assoc; eauto.
Qed.

(** X3.  Whatever fails, the call changes no file but the one at [path]. *)
Theorem overwriteFileIfChanged_frame phi path data perm fs other :
  other <> path ->
  files (overwriteFileIfChanged phi path data perm fs).2 !! other = files fs !! other.
Proof. apply overwriteFileIfChanged_other. Qed.

(** X4.  After a call whose file calls succeeded, a second call with the
    same data writes nothing, provided its reads succeed: the file holds
    [data] after both, with the same modification time, and the clock has
    not moved. *)
Theorem overwriteFileIfChanged_again_no_write phi1 phi2 path data perm fs :
  open_fault phi1 = None -> stat_fault phi1 = None -> chmod_fault phi1 = None ->
  truncate_fault phi1 = None -> write_fault phi1 = None ->
  mkdir_fault phi1 = None -> writefile_fault phi1 = None ->
  (forall k, (k < length data)%nat -> read_fault phi2 k = None) ->
  let r1 := overwriteFileIfChanged phi1 path data perm fs in
  let r2 := overwriteFileIfChanged phi2 path data perm r1.2 in
  r1.1 = None /\
  exists f1 f2,
    files r1.2 !! path = Some f1 /\ files r2.2 !! path = Some f2 /\
    content f1 = data /\ content f2 = data /\ mtime f2 = mtime f1 /\
    clock r2.2 = clock r1.2 /\
    filter isWrite (trace r2.2) = filter isWrite (trace r1.2).
Proof.
  intros Ho Hs Hc Ht Hw Hm Hwf Hread r1 r2.
  destruct (overwriteFileIfChanged_content phi1 path data perm fs Ho Hs Hc Ht Hw Hm Hwf)
    as (fs1 & f1 & Hrun & Hf1 & Hdata).
  subst r2 r1. rewrite Hrun. simpl. split; [done|].
  rewrite <- Hdata in Hread.
  destruct (overwriteFileIfChanged_same phi2 path perm fs1 f1 Hf1 Hread)
    as ((f2 & Hf2 & Hc2 & Hm2) & Hclock & Htrace).
  rewrite Hdata in Hf2, Hclock, Htrace.
  exists f1, f2. split_and!; try done. congruence.
Qed.

(** X5.  When the directory cannot be made, the call stops there: the
    error is the one of [MkdirAll], and no file is created or written. *)
Theorem overwriteFileIfChanged_mkdir_failure phi path data perm fs e :
  files fs !! path = None -> Dir path ∉ dirs fs ->
  open_fault phi = None -> mkdir_fault phi = Some e ->
  exists fs',
    overwriteFileIfChanged phi path data perm fs = (Some (ErrSys e), fs') /\
    files fs' = files fs /\ dirs fs' = dirs fs /\ clock fs' = clock fs /\
    trace fs' = trace fs ++ [OpMkdirAll (Dir path) 448].
Proof.
  intros Hf Hd Ho Hm. unfold overwriteFileIfChanged, OpenFile.
  rewrite Ho, Hf, decide_False by done. simpl. unfold MkdirAll. rewrite Hm. eauto 10.
Qed.

(** X6.  The permissions come first: when they have to be changed (they
    differ, or [Stat] failed) and [Chmod] fails, the call returns that error
    and leaves the content as it was, also when it differs from [data]. *)
Theorem overwriteFileIfChanged_chmod_failure phi path data perm fs f e :
  files fs !! path = Some f -> open_fault phi = None ->
  stat_fault phi <> None \/ Perm (mode f) <> perm ->
  chmod_fault phi = Some e ->
  exists fs',
    overwriteFileIfChanged phi path data perm fs = (Some (ErrSys e), fs') /\
    files fs' = files fs /\ clock fs' = clock fs /\
    trace fs' = trace fs ++ [OpChmod path perm].
Proof.
  intros Hf Ho Hneed Hc. unfold overwriteFileIfChanged, OpenFile. rewrite Ho, Hf.
  assert (Chmod phi path perm fs = (Some (ErrSys e), log (OpChmod path perm) fs)) as Hchmod.
  { unfold Chmod. by rewrite Hc. }
  destruct (stat_fault phi) as [e'|]; simpl.
  - rewrite Hchmod. eauto 10.
  - rewrite Hf. destruct Hneed as [?|Hperm]; [done|]. rewrite decide_False by done.
    rewrite Hchmod. eauto 10.
Qed.

(** X7.  On an existing file, when the file calls succeed, the permission
    bits end as [perm] whatever the content was: [Chmod] is called exactly
    when they differed, before any write. *)
Theorem overwriteFileIfChanged_sets_permissions phi path data perm fs f :
  files fs !! path = Some f -> Perm perm = perm ->
  open_fault phi = None -> stat_fault phi = None -> chmod_fault phi = None ->
  truncate_fault phi = None -> write_fault phi = None ->
  exists fs' f' writes,
    overwriteFileIfChanged phi path data perm fs = (None, fs') /\
    files fs' !! path = Some f' /\ Perm (mode f') = perm /\
    (Perm (mode f) = perm -> mode f' = mode f) /\
    trace fs' = trace fs ++ (if decide (Perm (mode f) = perm) then []
                             else [OpChmod path perm]) ++ writes /\
    Forall (fun op => isWrite op = true) writes.
Proof.
  intros Hf Hperm Ho Hs Hc Ht Hw.
  destruct (overwriteFileIfChanged_existing phi path data perm fs f Hf Ho Hs Hc Ht Hw)
    as (fs' & t & Hrun & Hf' & Hsteps).
  cbn zeta in Hsteps.
  assert (Perm (if decide (Perm (mode f) = perm) then mode f else perm) = perm) as Hbits
    by by destruct (decide (Perm (mode f) = perm)).
  destruct (if decide (length (content f) = length data) then _ else _) as [k|];
    destruct Hsteps as [Htrace _].
  - eexists fs', _, _. split; [done|]. split; [exact Hf'|]. cbn [mode].
    split; [done|]. split; [intros Heq; by rewrite decide_True|].
    split; [exact Htrace|]. by repeat constructor.
  - eexists fs', _, []. rewrite app_nil_r. split; [done|]. split; [exact Hf'|]. cbn [mode].
    split; [done|]. split; [intros Heq; by rewrite decide_True|]. done.
Qed.

(** X8.  [overwriteFile] when a call fails.  A failed [Truncate] leaves the
    file as it was.  A [WriteAt] that fails after some bytes leaves a file of
    the new length whose bytes before [offset] are the old ones. *)
Theorem overwriteFile_failure phi path data offset fs f :
  files fs !! path = Some f ->
  (offset <= length data)%nat -> (offset <= length (content f))%nat ->
  (forall e, truncate_fault phi = Some e ->
     overwriteFile phi path data offset fs
     = (Some (ErrSys e), log (OpTruncate path (length data)) fs)) /\
  (forall n e, truncate_fault phi = None -> write_fault phi = Some (n, e) ->
     drop offset data <> [] ->
     exists fs' f',
       overwriteFile phi path data offset fs = (Some (ErrSys e), fs') /\
       files fs' !! path = Some f' /\
       length (content f') = length data /\
       take offset (content f') = take offset (content f)).
Proof.
  intros Hf Hod Hoc. split.
  - intros e Ht. unfold overwriteFile, Truncate. by rewrite Ht.
  - intros n e Ht Hw Hb. unfold overwriteFile, Truncate. rewrite Ht.
    unfold WriteAt. destruct (drop offset data) as [|b bs] eqn:Hdrop; [done|].
    rewrite Hw.
    assert (length (b :: bs) = (length data - offset)%nat) as Hlen
      by by rewrite <- Hdrop, length_drop.
    destruct (decide (n = 0%nat)) as [Hn|Hn].
    + eexists _, _. split; [reflexivity|]. simpl. rewrite lookup_alter_eq, Hf. simpl.
      split; [done|]. cbn [content]. unfold truncated. split; [by rewrite length_resize|].
      rewrite take_resize_le by done. by rewrite resize_le.
    + eexists _, _. split; [reflexivity|]. simpl. rewrite !lookup_alter_eq, Hf. simpl.
      split; [done|]. cbn [content]. unfold written, truncated. split.
      * rewrite !length_app, !length_resize, length_drop, length_resize.
        rewrite length_take. lia.
      * rewrite take_app_le by (rewrite length_resize; lia).
        rewrite take_ge by (rewrite length_resize; lia).
        rewrite resize_resize by done. by rewrite resize_le.
Qed.

End FileSynchronizerMore.

(** ** The manifest reader and the priority assigner: order, bounds, errors *)

Section ManifestsMore.
Context `{Filepath} `{EncodingJSON} `{NixEnv}.

Lemma foldr_max_ge (a : Z) (l : list Z) :
  a <= foldr Z.max a l /\ Forall (fun x => x <= foldr Z.max a l) l.
Proof.
  induction l as [|x l [IHa IHl]]; simpl; [split; [lia|constructor]|].
  split; [lia|]. constructor; [lia|].
  eapply Forall_impl; [exact IHl|]. simpl. lia.
Qed.

(** X9.  The order in which [range] visits the map of a modern manifest
    does not matter: two orders give the same error, the same priorities up
    to their order, and the same next priority. *)
Theorem nextPriority_any_range_order (order1 order2 : MapRange) profilePath :
  (@readManifest _ _ order1 _ profilePath).2 = (@readManifest _ _ order2 _ profilePath).2 /\
  Priority <$> Elements (@readManifest _ _ order1 _ profilePath).1
    ≡ₚ Priority <$> Elements (@readManifest _ _ order2 _ profilePath).1 /\
  @nextPriority _ _ order1 _ profilePath = @nextPriority _ _ order2 _ profilePath.
Proof.
  assert ((@readManifest _ _ order1 _ profilePath).2
          = (@readManifest _ _ order2 _ profilePath).2 /\
          Priority <$> Elements (@readManifest _ _ order1 _ profilePath).1
            ≡ₚ Priority <$> Elements (@readManifest _ _ order2 _ profilePath).1) as [He Hp].
  { unfold readManifest. destruct (ReadFile _) as [err|data]; [by destruct (isNotExist err)|].
    destruct (Unmarshal decodeMap ∅ data) as [e1|modern]; [by destruct (Unmarshal decodeSlice _ _)|].
    split; [done|]. simpl.
    by rewrite (@mapRange_perm order1 modern), (@mapRange_perm order2 modern). }
  split_and!; [done..|]. unfold nextPriority.
  destruct (@readManifest _ _ order1 _ profilePath) as [m1 e1].
  destruct (@readManifest _ _ order2 _ profilePath) as [m2 e2]. simpl in *.
  by rewrite (maxPriority_perm _ _ Hp).
Qed.

Context `{MapRange}.

(** X10.  While every priority of the manifest is below the largest [int],
    the next priority is a number above [DefaultPriority] and above every
    priority of the manifest. *)
Theorem nextPriority_exceeds_all profilePath :
  let m := (readManifest profilePath).1 in
  (forall e, e ∈ Elements m -> Priority e < maxInt) ->
  exists n, nextPriority profilePath = formatInt n /\
    DefaultPriority < n <= maxInt /\
    forall e, e ∈ Elements m -> Priority e < n.
Proof.
  intros m Hlt. exists (maxPriority (Elements m) + 1).
  assert (DefaultPriority <= maxPriority (Elements m) <= maxInt - 1) as Hb.
  { rewrite maxPriority_foldr. apply foldr_max_bounds; [done|].
    apply Forall_fmap, Forall_forall. intros e He. specialize (Hlt e He). simpl. lia. }
  split_and!; try lia.
  - unfold nextPriority. subst m. destruct (readManifest profilePath) as [m err]. simpl in *.
    f_equal. apply wrapInt_in_range. unfold DefaultPriority, minInt, maxInt in *. lia.
  - intros e He. rewrite maxPriority_foldr.
    destruct (foldr_max_ge DefaultPriority (Priority <$> Elements m)) as [_ Hall].
    rewrite Forall_fmap, Forall_forall in Hall. specialize (Hall e He). simpl in Hall. lia.
Qed.

(** X11.  The errors of [readManifest]: an error comes with the empty
    manifest, and it is either the error of reading the file, which is then
    not a not-exist error, or the error of the legacy decoder on a text that
    the modern decoder has refused as well. *)
Theorem readManifest_errors profilePath m err :
  readManifest profilePath = (m, Some err) ->
  m = Manifest [] /\
  ((ReadFile (Join profilePath "manifest.json") = inl err /\ isNotExist err = false) \/
   (exists data e1,
      ReadFile (Join profilePath "manifest.json") = inr data /\
      Unmarshal decodeMap ∅ data = inl e1 /\
      Unmarshal decodeSlice [] data = inl err)).
Proof.
  unfold readManifest. destruct (ReadFile _) as [e|data].
  - destruct (isNotExist e) eqn:He; [done|]. intros [= <- <-]. by eauto.
  - destruct (Unmarshal decodeMap ∅ data) as [e1|modern] eqn:Hmodern; [|done].
    destruct (Unmarshal decodeSlice [] data) as [e2|legacy] eqn:Hlegacy; [|done].
    intros [= <- <-]. split; [done|]. right. eauto.
Qed.

End ManifestsMore.

(** ** The shell generator: cache, regeneration, version control, failures *)

Section ShellgenMore.
Context `{Filepath} `{Templates} `{ShellgenEnv}.

Implicit Types (w : world) (phi : faults).

(** A template that [getTemplate] returns is in the cache afterwards, and
    nothing else of the world has changed. *)
Lemma getTemplate_cached tmplKey w tmpl w1 :
  getTemplate tmplKey w = inr (tmpl, w1) ->
  tmplCache w1 !! tmplKey = Some tmpl /\
  (forall k, k <> tmplKey -> tmplCache w1 !! k = tmplCache w !! k) /\
  tmplBuf w1 = tmplBuf w /\ disk w1 = disk w /\ spawned w1 = spawned w.
Proof.
  unfold getTemplate. destruct (tmplCache w !! tmplKey) as [cached|] eqn:Hc.
  - intros [= <- <-]. done.
  - destruct (ParseFS _ _) as [err|parsed]; [done|]. intros [= <- <-]. simpl.
    rewrite lookup_insert_eq. split_and!; try done.
    intros k Hk. by rewrite lookup_insert_ne.
Qed.

(** [writeFromTemplate] changes the cache and the spawned commands as
    [getTemplate] does. *)
Lemma writeFromTemplate_cache phi path plan tmplName generatedName w tmpl w1 :
  getTemplate (tmplName +:+ ".tmpl") w = inr (tmpl, w1) ->
  tmplCache (writeFromTemplate phi path plan tmplName generatedName w).2 = tmplCache w1.
Proof.
  intros Hget. unfold writeFromTemplate. rewrite Hget.
  destruct (Execute tmpl plan) as [out [err|]]; simpl; [done|].
  by destruct (overwriteFileIfChanged _ _ _ _ _) as [[err|] fs].
Qed.

(** X12.  A template is parsed once: after a call that could resolve its
    template, the cache holds it, whether or not the execution and the
    write succeeded, a later lookup returns it without parsing and leaves
    the world as it is, and the other entries of the cache are unchanged. *)
Theorem writeFromTemplate_caches_template phi path plan tmplName generatedName w tmpl w1 :
  let tmplKey := tmplName +:+ ".tmpl" in
  let r := writeFromTemplate phi path plan tmplName generatedName w in
  getTemplate tmplKey w = inr (tmpl, w1) ->
  tmplCache r.2 !! tmplKey = Some tmpl /\
  getTemplate tmplKey r.2 = inr (tmpl, r.2) /\
  forall k, k <> tmplKey -> tmplCache r.2 !! k = tmplCache w !! k.
Proof.
  intros tmplKey r Hget.
  destruct (getTemplate_cached _ _ _ _ Hget) as (Hkey & Hothers & _).
  pose proof (writeFromTemplate_cache phi path plan tmplName generatedName w tmpl w1 Hget)
    as Hcache. fold r in Hcache.
  split_and!.
  - by rewrite Hcache.
  - unfold getTemplate. by rewrite Hcache, Hkey.
  - intros k Hk. rewrite Hcache. by apply Hothers.
Qed.

(** The files [writeFromTemplate] leaves alone. *)
Lemma writeFromTemplate_other phi path plan tmplName generatedName w other :
  other <> Join path generatedName ->
  files (disk (writeFromTemplate phi path plan tmplName generatedName w).2) !! other
  = files (disk w) !! other.
Proof.
  intros Hother. unfold writeFromTemplate.
  destruct (getTemplate _ w) as [err|[tmpl w1]] eqn:Hget; [done|].
  destruct (getTemplate_cached _ _ _ _ Hget) as (_ & _ & _ & Hdisk & _).
  destruct (Execute tmpl plan) as [out [err|]]; simpl; [by rewrite Hdisk|].
  pose proof (overwriteFileIfChanged_other phi (Join path generatedName) out 420 (disk w1)
                other Hother) as Hframe.
  destruct (overwriteFileIfChanged _ _ _ _ _) as [[err|] fs]; simpl in *;
    by rewrite Hframe, Hdisk.
Qed.

(** X13.  [writeFromTemplate] changes no file but its target and runs no
    command, whatever fails. *)
Theorem writeFromTemplate_frame phi path plan tmplName generatedName w other :
  let r := writeFromTemplate phi path plan tmplName generatedName w in
  other <> Join path generatedName ->
  files (disk r.2) !! other = files (disk w) !! other /\ spawned r.2 = spawned w.
Proof.
  intros r Hother. split; [by apply writeFromTemplate_other|apply writeFromTemplate_spawned].
Qed.

(** X14.  Generating the same file again does not touch it: after a call
    that rendered and wrote the file, a second call for the same plan writes
    nothing, and the file keeps its content and its modification time. *)
Theorem writeFromTemplate_again_keeps_mtime phi1 phi2 path plan tmplName generatedName
    w tmpl w1 out :
  getTemplate (tmplName +:+ ".tmpl") w = inr (tmpl, w1) ->
  Execute tmpl plan = (out, None) ->
  open_fault phi1 = None -> stat_fault phi1 = None -> chmod_fault phi1 = None ->
  truncate_fault phi1 = None -> write_fault phi1 = None ->
  mkdir_fault phi1 = None -> writefile_fault phi1 = None ->
  (forall k, (k < length out)%nat -> read_fault phi2 k = None) ->
  let r1 := writeFromTemplate phi1 path plan tmplName generatedName w in
  let r2 := writeFromTemplate phi2 path plan tmplName generatedName r1.2 in
  r1.1 = None /\
  exists f1 f2,
    files (disk r1.2) !! Join path generatedName = Some f1 /\
    files (disk r2.2) !! Join path generatedName = Some f2 /\
    content f1 = out /\ content f2 = out /\ mtime f2 = mtime f1 /\
    clock (disk r2.2) = clock (disk r1.2) /\
    filter isWrite (trace (disk r2.2)) = filter isWrite (trace (disk r1.2)).
Proof.
  intros Hget Hexec Ho Hs Hc Ht Hw Hm Hwf Hread r1 r2.
  destruct (getTemplate_cached _ _ _ _ Hget) as (Hkey & _ & _ & Hdisk & _).
  destruct (overwriteFileIfChanged_content phi1 (Join path generatedName) out 420 (disk w1)
              Ho Hs Hc Ht Hw Hm Hwf) as (fs1 & f1 & Hrun & Hf1 & Hdata).
  assert (r1 = (None, World (tmplCache w1) out fs1 (spawned w1))) as Hr1.
  { subst r1. unfold writeFromTemplate. rewrite Hget, Hexec. simpl. by rewrite Hrun. }
  subst r2. rewrite Hr1. simpl. split; [done|].
  rewrite <- Hdata in Hread.
  destruct (overwriteFileIfChanged_same phi2 (Join path generatedName) 420 fs1 f1 Hf1 Hread)
    as ((f2 & Hf2 & Hc2 & Hm2) & Hclock & Htrace).
  rewrite Hdata in Hf2, Hclock, Htrace.
  unfold writeFromTemplate, getTemplate. simpl. rewrite Hkey, Hexec. simpl.
  exists f1, f2.
  destruct (overwriteFileIfChanged phi2 _ out 420 fs1) as [[err|] fs2]; simpl in *;
    split_and!; try done; congruence.
Qed.



(** X16.  The walk has no other end than a marker, an error or ["/"].  When
    it reaches, without a marker on its way, a directory other than ["/"]
    that is its own parent (["."], for a relative path), it goes on for ever:
    no number of iterations gives a result, and [makeFlakeFile] does not
    return after it has written the flake file. *)
Theorem isProjectInGitRepo_never_returns fuel n dir fs :
  (forall i, (i <= n)%nat ->
     ancestor i dir <> "/" /\ Stat (Join (ancestor i dir) ".git") fs = Some ErrNotExist) ->
  Dir (ancestor n dir) = ancestor n dir ->
  isProjectInGitRepo fuel dir fs = None /\
  forall phi d plan w w1,
    writeFromTemplate phi (FlakePath d) plan flakeTemplate "flake.nix" w = (None, w1) ->
    disk w1 = fs ->
    makeFlakeFile fuel phi d dir plan w = None.
Proof.
  intros Hwalk Hfix.
  assert (isProjectInGitRepo fuel dir fs = None) as Hloop.
  { revert n dir Hwalk Hfix. induction fuel as [|fuel IH]; intros n dir Hwalk Hfix; [done|].
    simpl. destruct (Hwalk 0%nat) as [Hroot Hstat]; [lia|]. simpl in *.
    rewrite decide_False, Hstat by done. simpl.
    destruct n as [|n].
    - simpl in Hfix. rewrite Hfix. apply (IH 0%nat); [|done].
      intros i Hi. assert (i = 0%nat) as -> by lia. done.
    - apply (IH n).
      + intros i Hi. rewrite <- ancestor_succ. apply Hwalk. lia.
      + by rewrite <- !ancestor_succ. }
  split; [done|]. intros phi d plan w w1 Hwrite <-.
  unfold makeFlakeFile. by rewrite Hwrite, Hloop.
Qed.

End ShellgenMore.

Section GenerateMore.
Context `{Filepath} `{GenerateEnv} `{EmbedFS}.

(** X17.  [GenerateForPrintEnv] stops at its first failure.  Without a
    plan nothing is done.  When [shell.nix] cannot be rendered or written,
    the error comes back with a stack, no file but [shell.nix] has changed,
    no command was run, and neither the later files nor the scripts were
    written: the world is the one the failed step left. *)
Theorem GenerateForPrintEnv_stops_at_failure fuel shell ignore flake devbox w :
  (forall err, newFlakePlan devbox = inl err ->
     GenerateForPrintEnv fuel shell ignore flake devbox w = Some (Some err, w)) /\
  (forall plan err w1,
     newFlakePlan devbox = inr plan ->
     writeFromTemplate shell (genPath devbox) plan "shell.nix" "shell.nix" w = (Some err, w1) ->
     GenerateForPrintEnv fuel shell ignore flake devbox w = Some (Some (WithStack err), w1) /\
     spawned w1 = spawned w /\
     forall other, other <> Join (genPath devbox) "shell.nix" ->
       files (disk w1) !! other = files (disk w) !! other).
Proof.
  split.
  - intros err Hplan. unfold GenerateForPrintEnv. by rewrite Hplan.
  - intros plan err w1 Hplan Hshell. split_and!.
    + unfold GenerateForPrintEnv. by rewrite Hplan, Hshell.
    + rewrite <- (writeFromTemplate_spawned shell (genPath devbox) plan "shell.nix"
                    "shell.nix" w). by rewrite Hshell.
    + intros other Hother.
      pose proof (writeFromTemplate_other shell (genPath devbox) plan "shell.nix" "shell.nix"
                    w other Hother) as Hfiles.
      by rewrite Hshell in Hfiles.
Qed.

(** X18.  [writeGlibcPatchScript]: when the embedded script cannot be
    read, the disk is left as it is; when it can, the file ends with the
    script, and writing it again writes nothing and keeps its modification
    time. *)
Theorem writeGlibcPatchScript_twice phi1 phi2 path fs :
  (forall err, embedReadFile "tmpl/glibc-patch.bash" = inl err ->
     writeGlibcPatchScript phi1 path fs
     = (Some (Redacted "read embedded glibc-patch.bash: %v" [] err), fs)) /\
  (forall script,
     embedReadFile "tmpl/glibc-patch.bash" = inr script ->
     open_fault phi1 = None -> stat_fault phi1 = None -> chmod_fault phi1 = None ->
     truncate_fault phi1 = None -> write_fault phi1 = None ->
     mkdir_fault phi1 = None -> writefile_fault phi1 = None ->
     (forall k, (k < length script)%nat -> read_fault phi2 k = None) ->
     let r1 := writeGlibcPatchScript phi1 path fs in
     let r2 := writeGlibcPatchScript phi2 path r1.2 in
     r1.1 = None /\
     exists f1 f2,
       files r1.2 !! path = Some f1 /\ files r2.2 !! path = Some f2 /\
       content f1 = script /\ content f2 = script /\ mtime f2 = mtime f1 /\
       clock r2.2 = clock r1.2).
Proof.
  split.
  - intros err Hread. unfold writeGlibcPatchScript. by rewrite Hread.
  - intros script Hscript Ho Hs Hc Ht Hw Hm Hwf Hread r1 r2.
    destruct (overwriteFileIfChanged_content phi1 path script 493 fs Ho Hs Hc Ht Hw Hm Hwf)
      as (fs1 & f1 & Hrun & Hf1 & Hdata).
    assert (r1 = (None, fs1)) as Hr1.
    { subst r1. unfold writeGlibcPatchScript. by rewrite Hscript, Hrun. }
    subst r2. rewrite Hr1. simpl. split; [done|].
    rewrite <- Hdata in Hread.
    destruct (overwriteFileIfChanged_same phi2 path 493 fs1 f1 Hf1 Hread)
      as ((f2 & Hf2 & Hc2 & Hm2) & Hclock & _).
    rewrite Hdata in Hf2, Hclock.
    unfold writeGlibcPatchScript. rewrite Hscript.
    exists f1, f2.
    destruct (overwriteFileIfChanged phi2 path script 493 fs1) as [[err|] fs2]; simpl in *;
      split_and!; try done; congruence.
Qed.

End GenerateMore.

(** *** The further properties on examples *)

Lemma overwriteFileIfChanged_makes_directory_witness :
  exists fs' f',
    overwriteFileIfChanged no_faults "/new/dir/patch.sh" (list_byte_of_string "AB") 493
      exampleDisk = (None, fs') /\
    files fs' !! "/new/dir/patch.sh" = Some f' /\ content f' = list_byte_of_string "AB" /\
    mode f' = N.ldiff (Perm 493) (umask exampleDisk) /\
    Dir "/new/dir/patch.sh" ∈ dirs fs' /\
    trace fs' = trace exampleDisk
                  ++ [OpMkdirAll (Dir "/new/dir/patch.sh") 448;
                      OpWriteFile "/new/dir/patch.sh" (list_byte_of_string "AB") 493].
Proof.
  apply (overwriteFileIfChanged_makes_directory no_faults "/new/dir/patch.sh"
           (list_byte_of_string "AB") 493 exampleDisk);
    [by vm_compute|by apply (bool_decide_unpack _)|reflexivity..].
Defined.

(** With a umask of [0o022] a file asked for with [0o666] gets [0o644] when
    its directory had to be made, and [0o666] when the directory was there. *)
Example permissions_of_new_files :
  mode <$> files (overwriteFileIfChanged no_faults "/new/dir/f" [] 438 exampleDisk).2
             !! "/new/dir/f" = Some 420%N /\
  mode <$> files (overwriteFileIfChanged no_faults "/out/f" [] 438 exampleDisk).2
             !! "/out/f" = Some 438%N.
Proof. by vm_compute. Qed.

Lemma overwriteFileIfChanged_creates_file_witness :
  exists fs' f',
    overwriteFileIfChanged no_faults "/out/shell.nix" (list_byte_of_string "AB") 438
      exampleDisk = (None, fs') /\
    files fs' !! "/out/shell.nix" = Some f' /\ content f' = list_byte_of_string "AB" /\
    Perm (mode f') = 438%N /\
    exists rest, trace fs' = trace exampleDisk ++ OpCreate "/out/shell.nix" 438 :: rest.
Proof.
  apply (overwriteFileIfChanged_creates_file no_faults "/out/shell.nix"
           (list_byte_of_string "AB") 438 exampleDisk);
    [by vm_compute|by apply (bool_decide_unpack _)|reflexivity..].
Defined.

Lemma overwriteFileIfChanged_frame_witness :
  files (overwriteFileIfChanged no_faults "/out/shell.nix" (list_byte_of_string "AB") 420
           exampleDisk).2 !! "/out/flake.nix"
  = files exampleDisk !! "/out/flake.nix".
Proof.
  apply (overwriteFileIfChanged_frame no_faults "/out/shell.nix" (list_byte_of_string "AB")
           420 exampleDisk "/out/flake.nix").
  discriminate.
Defined.

Lemma overwriteFileIfChanged_again_no_write_witness :
  let data := list_byte_of_string "AAAACCCC" in
  let r1 := overwriteFileIfChanged no_faults "/out/flake.nix" data 420 exampleDisk in
  let r2 := overwriteFileIfChanged no_faults "/out/flake.nix" data 420 r1.2 in
  r1.1 = None /\
  exists f1 f2,
    files r1.2 !! "/out/flake.nix" = Some f1 /\ files r2.2 !! "/out/flake.nix" = Some f2 /\
    content f1 = data /\ content f2 = data /\ mtime f2 = mtime f1 /\
    clock r2.2 = clock r1.2 /\
    filter isWrite (trace r2.2) = filter isWrite (trace r1.2).
Proof.
  apply (overwriteFileIfChanged_again_no_write no_faults no_faults "/out/flake.nix"
           (list_byte_of_string "AAAACCCC") 420 exampleDisk); reflexivity.
Defined.

Lemma overwriteFileIfChanged_mkdir_failure_witness :
  exists fs',
    overwriteFileIfChanged mkdirRefused "/new/dir/patch.sh" (list_byte_of_string "AB") 493
      exampleDisk = (Some (ErrSys EACCES), fs') /\
    files fs' = files exampleDisk /\ dirs fs' = dirs exampleDisk /\
    clock fs' = clock exampleDisk /\
    trace fs' = trace exampleDisk ++ [OpMkdirAll (Dir "/new/dir/patch.sh") 448].
Proof.
  apply (overwriteFileIfChanged_mkdir_failure mkdirRefused "/new/dir/patch.sh"
           (list_byte_of_string "AB") 493 exampleDisk EACCES);
    [by vm_compute|by apply (bool_decide_unpack _)|reflexivity..].
Defined.

Lemma overwriteFileIfChanged_chmod_failure_witness :
  exists fs',
    overwriteFileIfChanged chmodReadOnly "/out/flake.nix" (list_byte_of_string "AAAACCCC") 493
      exampleDisk = (Some (ErrSys EROFS), fs') /\
    files fs' = files exampleDisk /\ clock fs' = clock exampleDisk /\
    trace fs' = trace exampleDisk ++ [OpChmod "/out/flake.nix" 493].
Proof.
  apply (overwriteFileIfChanged_chmod_failure chmodReadOnly "/out/flake.nix"
           (list_byte_of_string "AAAACCCC") 493 exampleDisk
           (File (list_byte_of_string "AAAABBBB") 420 7) EROFS);
    [by vm_compute|reflexivity|right; by vm_compute|reflexivity].
Defined.

Lemma overwriteFileIfChanged_sets_permissions_witness :
  exists fs' f' writes,
    overwriteFileIfChanged no_faults "/out/flake.nix" (list_byte_of_string "AAAACCCC") 493
      exampleDisk = (None, fs') /\
    files fs' !! "/out/flake.nix" = Some f' /\ Perm (mode f') = 493%N /\
    (Perm 420 = 493%N -> mode f' = 420%N) /\
    trace fs' = trace exampleDisk
                  ++ (if decide (Perm 420 = 493%N) then [] else [OpChmod "/out/flake.nix" 493])
                  ++ writes /\
    Forall (fun op => isWrite op = true) writes.
Proof.
  apply (overwriteFileIfChanged_sets_permissions no_faults "/out/flake.nix"
           (list_byte_of_string "AAAACCCC") 493 exampleDisk
           (File (list_byte_of_string "AAAABBBB") 420 7));
    [by vm_compute|reflexivity..].
Defined.

Lemma overwriteFile_failure_witness :
  exists fs' f',
    overwriteFile diskFull "/out/flake.nix" (list_byte_of_string "AAAACCCCDD") 4 exampleDisk
      = (Some (ErrSys ENOSPC), fs') /\
    files fs' !! "/out/flake.nix" = Some f' /\
    length (content f') = 10%nat /\
    take 4 (content f') = list_byte_of_string "AAAA".
Proof.
  refine (proj2 (overwriteFile_failure diskFull "/out/flake.nix"
                   (list_byte_of_string "AAAACCCCDD") 4 exampleDisk
                   (File (list_byte_of_string "AAAABBBB") 420 7) _ _ _)
            2%nat ENOSPC eq_refl eq_refl _);
    [by vm_compute|simpl; lia|simpl; lia|discriminate].
Defined.

(** What the file holds after that failed write: the two bytes that were
    written, and zero bytes where the truncation had extended the file. *)
Example partial_write_content :
  content <$> files (overwriteFile diskFull "/out/flake.nix"
                       (list_byte_of_string "AAAACCCCDD") 4 exampleDisk).2 !! "/out/flake.nix"
  = Some (list_byte_of_string "AAAACCBB" ++ [x00; x00]).
Proof. by vm_compute. Qed.

Lemma nextPriority_exceeds_all_witness :
  exists n, @nextPriority unixPath asciiJSON listedRange strict "/three" = formatInt n /\
    DefaultPriority < n <= maxInt /\
    forall e, e ∈ Elements (@readManifest unixPath asciiJSON listedRange strict "/three").1 ->
      Priority e < n.
Proof.
  apply (@nextPriority_exceeds_all unixPath asciiJSON strict listedRange "/three").
  intros e He. vm_compute in He.
  apply list_elem_of_In in He. simpl in He.
  destruct He as [<-|[<-|[<-|[]]]]; by vm_compute.
Defined.

Lemma readManifest_errors_witness :
  Manifest [] = Manifest [] /\
  ((@ReadFile strict (Join "/denied" "manifest.json") = inl (ErrSys EACCES) /\
    isNotExist (ErrSys EACCES) = false) \/
   (exists data e1,
      @ReadFile strict (Join "/denied" "manifest.json") = inr data /\
      Unmarshal decodeMap ∅ data = inl e1 /\
      Unmarshal decodeSlice [] data = inl (ErrSys EACCES))).
Proof.
  apply (@readManifest_errors unixPath asciiJSON strict listedRange "/denied").
  by vm_compute.
Defined.

Lemma writeFromTemplate_caches_template_witness :
  let r := @writeFromTemplate unixPath badTemplates no_faults "/proj/.devbox/gen/flake" tt
             "flake.nix" "flake.nix" (@projectWorld badTemplates true) in
  @tmplCache badTemplates r.2 !! "flake.nix.tmpl"
    = Some (list_byte_of_string "{ ne", Some (UserErr "can't evaluate field Packages")) /\
  @getTemplate badTemplates "flake.nix.tmpl" r.2
    = inr ((list_byte_of_string "{ ne", Some (UserErr "can't evaluate field Packages")), r.2) /\
  forall k, k <> "flake.nix.tmpl" ->
    @tmplCache badTemplates r.2 !! k = @tmplCache badTemplates (@projectWorld badTemplates true) !! k.
Proof.
  intros r.
  refine (@writeFromTemplate_caches_template unixPath badTemplates no_faults
            "/proj/.devbox/gen/flake" tt "flake.nix" "flake.nix" (@projectWorld badTemplates true)
            (list_byte_of_string "{ ne", Some (UserErr "can't evaluate field Packages")) _ _).
  vm_compute. reflexivity.
Defined.

Lemma writeFromTemplate_frame_witness :
  let r := @writeFromTemplate unixPath goodTemplates no_faults "/proj/.devbox/gen" tt
             "flake.nix" "flake.nix" (@projectWorld goodTemplates true) in
  files (@disk goodTemplates r.2) !! "/proj/.devbox/gen/flake/flake.nix"
    = files (projectDisk true) !! "/proj/.devbox/gen/flake/flake.nix" /\
  @spawned goodTemplates r.2 = [].
Proof.
  intros r.
  apply (@writeFromTemplate_frame unixPath goodTemplates no_faults "/proj/.devbox/gen" tt
           "flake.nix" "flake.nix" (@projectWorld goodTemplates true)
           "/proj/.devbox/gen/flake/flake.nix").
  by vm_compute.
Defined.

Lemma writeFromTemplate_again_keeps_mtime_witness :
  let r1 := @writeFromTemplate unixPath goodTemplates no_faults "/proj/.devbox/gen/flake" tt
              "flake.nix" "flake.nix" (@projectWorld goodTemplates true) in
  let r2 := @writeFromTemplate unixPath goodTemplates no_faults "/proj/.devbox/gen/flake" tt
              "flake.nix" "flake.nix" r1.2 in
  r1.1 = None /\
  exists f1 f2,
    files (@disk goodTemplates r1.2) !! "/proj/.devbox/gen/flake/flake.nix" = Some f1 /\
    files (@disk goodTemplates r2.2) !! "/proj/.devbox/gen/flake/flake.nix" = Some f2 /\
    content f1 = list_byte_of_string "{ new }" /\
    content f2 = list_byte_of_string "{ new }" /\ mtime f2 = mtime f1 /\
    clock (@disk goodTemplates r2.2) = clock (@disk goodTemplates r1.2) /\
    filter isWrite (trace (@disk goodTemplates r2.2))
      = filter isWrite (trace (@disk goodTemplates r1.2)).
Proof.
  refine (@writeFromTemplate_again_keeps_mtime unixPath goodTemplates no_faults no_faults
            "/proj/.devbox/gen/flake" tt "flake.nix" "flake.nix"
            (@projectWorld goodTemplates true) (list_byte_of_string "{ new }", None) _
            (list_byte_of_string "{ new }") _ _ _ _ _ _ _ _ _ _);
    [vm_compute; reflexivity|reflexivity..].
Defined.


Lemma isProjectInGitRepo_never_returns_witness :
  @isProjectInGitRepo unixPath (exampleShellgen (fun _ => None)) 1000 "gen" (projectDisk true)
    = None /\
  forall phi d plan w w1,
    @writeFromTemplate unixPath goodTemplates phi
      (@FlakePath (exampleShellgen (fun _ => None)) d) plan
      (@flakeTemplate (exampleShellgen (fun _ => None))) "flake.nix" w = (None, w1) ->
    @disk goodTemplates w1 = projectDisk true ->
    @makeFlakeFile unixPath goodTemplates (exampleShellgen (fun _ => None)) 1000 phi d "gen"
      plan w = None.
Proof.
  apply (@isProjectInGitRepo_never_returns unixPath goodTemplates
           (exampleShellgen (fun _ => None)) 1000 1 "gen" (projectDisk true)).
  - intros i Hi. destruct i as [|[|i]]; [by vm_compute..|lia].
  - reflexivity.
Defined.

Lemma GenerateForPrintEnv_stops_at_failure_witness :
  exists err w1,
    @GenerateForPrintEnv unixPath goodTemplates _ exampleGenerate 8 no_faults no_faults
      no_faults tt (@projectWorld goodTemplates true)
    = Some (Some (WithStack err), w1) /\
    @spawned goodTemplates w1 = [] /\
    files (@disk goodTemplates w1) !! "/proj/.devbox/gen/flake/flake.nix"
    = files (projectDisk true) !! "/proj/.devbox/gen/flake/flake.nix".
Proof.
  eexists _, _.
  destruct (proj2 (@GenerateForPrintEnv_stops_at_failure unixPath goodTemplates _
                     exampleGenerate 8 no_faults no_faults no_faults tt
                     (@projectWorld goodTemplates true))
              tt _ _ eq_refl eq_refl) as (Hrun & Hspawned & Hframe).
  split; [exact Hrun|]. split; [exact Hspawned|]. apply Hframe. by vm_compute.
Defined.

Lemma writeGlibcPatchScript_twice_witness :
  let r1 := @writeGlibcPatchScript unixPath exampleEmbed no_faults
              "/proj/.devbox/gen/flake/glibc-patch/glibc-patch.bash" (projectDisk true) in
  let r2 := @writeGlibcPatchScript unixPath exampleEmbed no_faults
              "/proj/.devbox/gen/flake/glibc-patch/glibc-patch.bash" r1.2 in
  r1.1 = None /\
  exists f1 f2,
    files r1.2 !! "/proj/.devbox/gen/flake/glibc-patch/glibc-patch.bash" = Some f1 /\
    files r2.2 !! "/proj/.devbox/gen/flake/glibc-patch/glibc-patch.bash" = Some f2 /\
    content f1 = list_byte_of_string "#!/bin/bash" /\
    content f2 = list_byte_of_string "#!/bin/bash" /\ mtime f2 = mtime f1 /\
    clock r2.2 = clock r1.2.
Proof.
  refine (proj2 (@writeGlibcPatchScript_twice unixPath exampleEmbed no_faults no_faults
                   "/proj/.devbox/gen/flake/glibc-patch/glibc-patch.bash" (projectDisk true))
            (list_byte_of_string "#!/bin/bash") _ _ _ _ _ _ _ _ _); reflexivity.
Defined.
